(** * Server-side user management: registration and wallet linking

    A shallow embedding of [src/frontend/backend/user/user.ts].

    The relational store reached through the Prisma client is a record of
    tables, each table a list of rows.  An [async] function becomes a pure
    function from the store (and the clock reading, where the source reads
    the clock) to an outcome paired with the store it leaves behind.  The
    identity provider, the signature verifier and the two profile side
    effects are external: they are variables of the sections below. *)

From Stdlib Require Import ZArith List String Ascii Bool Lia DecimalString.
From Stdlib Require DecimalZ DecimalPos.
From Stdlib Require Import Sorted Permutation.
Import ListNotations.

Local Open Scope Z_scope.

(** ** JavaScript strings

    Strings are sequences of ASCII characters, which covers hexadecimal
    wallet addresses and invite codes. *)

Module JsString.

(** [String.prototype.toLowerCase], on ASCII letters. *)
Definition lowerChar (c : ascii) : ascii :=
  let n := nat_of_ascii c in
  if (Nat.leb 65 n && Nat.leb n 90)%bool then ascii_of_nat (n + 32) else c.

Fixpoint toLowerCase (s : string) : string :=
  match s with
  | EmptyString => EmptyString
  | String c r => String (lowerChar c) (toLowerCase r)
  end.

(** White space and line terminators of the ASCII range:
    TAB, LF, VT, FF, CR and SPACE. *)
Definition isWhiteSpace (c : ascii) : bool :=
  let n := nat_of_ascii c in
  (Nat.leb 9 n && Nat.leb n 13)%bool || Nat.eqb n 32.

Fixpoint trimStart (s : string) : string :=
  match s with
  | EmptyString => EmptyString
  | String c r => if isWhiteSpace c then trimStart r else s
  end.

Fixpoint trimEnd (s : string) : string :=
  match s with
  | EmptyString => EmptyString
  | String c r =>
      match trimEnd r with
      | EmptyString => if isWhiteSpace c then EmptyString else String c EmptyString
      | r' => String c r'
      end
  end.

(** [String.prototype.trim]. *)
Definition trim (s : string) : string := trimEnd (trimStart s).

(** The decimal rendering of an integer inside a template literal. *)
Definition ofNumber (z : Z) : string := NilZero.string_of_int (Z.to_int z).

End JsString.

(** ** Error kinds ([@/lib/errors]) *)

Inductive ERRORS : Set :=
| UNAUTHORIZED
| USER_ALREADY_EXISTS
| WALLET_MISSING
| INVALID_INVITE_CODE
| CODE_ALREADY_USED
| CHALLENGE_EXPIRED
| INVALID_SIGNATURE
| USER_NOT_FOUND
| NO_SOCIAL_PROFILE_FOUND
| INVALID_REQUEST
| USERNAME_INVALID_FORMAT
| SOMETHING_WENT_WRONG.

(** ** Rows and tables *)

Record User : Set := mkUser {
  user_id : Z;
  user_privyUserId : string;
  user_wallet : string;
  user_socialWallet : option string;
  user_invitedById : option Z;
  user_isActive : bool
}.

Record InviteCode : Set := mkInviteCode {
  code_id : Z;
  code_code : string;
  code_isActive : bool;
  code_used : Z;
  code_maxUses : Z
}.

Record SigningChallenge : Set := mkSigningChallenge {
  challenge_userId : Z;
  challenge_publicKey : string;
  challenge_message : string;
  challenge_updatedAt : Z
}.

Record Store : Set := mkStore {
  users : list User;
  inviteCodes : list InviteCode;
  signingChallenges : list SigningChallenge
}.

(** ** Outcomes

    A service function resolves to [{ data }] or [{ error }], or its promise
    rejects because a store call threw. *)

Inductive PrismaError : Set :=
| RecordNotFound
| UniqueConstraintFailed.

Inductive Outcome (A : Type) : Type :=
| Data (a : A)
| Error (e : ERRORS)
| Rejects (e : PrismaError).

Arguments Data {A} a.
Arguments Error {A} e.
Arguments Rejects {A} e.

Definition isData {A} (o : Outcome A) : bool :=
  match o with Data _ => true | _ => false end.

(** ** Transactions

    The callback given to [prisma.$transaction] threads the store through
    its writes; a write that throws aborts the callback. *)

Definition Tx (A : Type) : Type := Store -> PrismaError + (A * Store).

Definition tx_ret {A} (a : A) : Tx A := fun s => inr (a, s).

Definition tx_bind {A B} (m : Tx A) (k : A -> Tx B) : Tx B :=
  fun s =>
    match m s with
    | inl e => inl e
    | inr (a, s1) => k a s1
    end.

Declare Scope tx_scope.
Delimit Scope tx_scope with tx.
Notation "x <- m ;; k" := (tx_bind m (fun x => k))
  (at level 61, m at next level, right associativity) : tx_scope.
Notation "m ;;; k" := (tx_bind m (fun _ => k))
  (at level 61, right associativity) : tx_scope.

Definition optEqb (o : option string) (w : string) : bool :=
  match o with
  | Some v => String.eqb v w
  | None => false
  end.

(** ** The Prisma client *)

Module prisma.

(** [$transaction]: the writes of the callback are kept when it returns
    and dropped when it throws. *)
Definition transaction {A} (body : Tx A) (s : Store) : (PrismaError + A) * Store :=
  match body s with
  | inl e => (inl e, s)
  | inr (a, s1) => (inr a, s1)
  end.

Module user.

(** [findUnique({ where: { privyUserId } })] *)
Definition findUnique (privyUserId : string) (s : Store) : option User :=
  find (fun u => String.eqb (user_privyUserId u) privyUserId) (users s).

(** [findMany({ where: { socialWallet: { in: addresses } } })];
    a row whose [socialWallet] is null matches no address. *)
Definition findMany_socialWallet_in (addresses : list string) (s : Store) : list User :=
  filter (fun u => existsb (optEqb (user_socialWallet u)) addresses) (users s).

(** The primary key the store gives a new row: one more than every key in
    use (the schema is not part of the sources). *)
Definition nextId (s : Store) : Z :=
  1 + fold_right Z.max 0 (map user_id (users s)).

(** Modelled from the spec: the unique constraints of the [User] table
    (the schema is not part of the sources): identity reference and
    primary wallet are unique. *)
Definition createConflict (privyUserId wallet : string) (s : Store) : bool :=
  existsb (fun u => String.eqb (user_privyUserId u) privyUserId
                    || String.eqb (user_wallet u) wallet) (users s).

(** [create({ data: { privyUserId, invitedById, wallet, isActive } })] *)
Definition create (privyUserId : string) (invitedById : Z) (wallet : string)
    (isActive : bool) : Tx User :=
  fun s =>
    if createConflict privyUserId wallet s then inl UniqueConstraintFailed
    else
      let row := mkUser (nextId s) privyUserId wallet None (Some invitedById) isActive in
      inr (row, mkStore (users s ++ [row]) (inviteCodes s) (signingChallenges s)).

Definition setSocialWallet (w : string) (u : User) : User :=
  mkUser (user_id u) (user_privyUserId u) (user_wallet u) (Some w)
         (user_invitedById u) (user_isActive u).

(** Modelled from the spec: the social wallet is unique when present
    (the schema is not part of the sources). *)
Definition socialWalletConflict (id : Z) (w : string) (s : Store) : bool :=
  existsb (fun u => negb (Z.eqb (user_id u) id) && optEqb (user_socialWallet u) w)
          (users s).

(** [update({ where: { id }, data: { socialWallet } })] *)
Definition update_socialWallet (id : Z) (w : string) : Tx User :=
  fun s =>
    match find (fun u => Z.eqb (user_id u) id) (users s) with
    | None => inl RecordNotFound
    | Some u =>
        if socialWalletConflict id w s then inl UniqueConstraintFailed
        else
          inr (setSocialWallet w u,
               mkStore (map (fun r => if Z.eqb (user_id r) id then setSocialWallet w r else r)
                            (users s))
                       (inviteCodes s) (signingChallenges s))
    end.

End user.

Module inviteCode.

(** [findUnique({ where: { code } })] *)
Definition findUnique (code : string) (s : Store) : option InviteCode :=
  find (fun c => String.eqb (code_code c) code) (inviteCodes s).

Definition setUsed (n : Z) (c : InviteCode) : InviteCode :=
  mkInviteCode (code_id c) (code_code c) (code_isActive c) n (code_maxUses c).

(** [update({ where: { id }, data: { used } })] *)
Definition update_used (id : Z) (n : Z) : Tx InviteCode :=
  fun s =>
    match find (fun c => Z.eqb (code_id c) id) (inviteCodes s) with
    | None => inl RecordNotFound
    | Some c =>
        inr (setUsed n c,
             mkStore (users s)
                     (map (fun r => if Z.eqb (code_id r) id then setUsed n r else r)
                          (inviteCodes s))
                     (signingChallenges s))
    end.

End inviteCode.

Module signingChallenge.

(** [findFirst({ where: { userId } })] *)
Definition findFirst (userId : Z) (s : Store) : option SigningChallenge :=
  find (fun c => Z.eqb (challenge_userId c) userId) (signingChallenges s).

(** [delete({ where: { userId } })] *)
Definition delete (userId : Z) : Tx SigningChallenge :=
  fun s =>
    match findFirst userId s with
    | None => inl RecordNotFound
    | Some c =>
        inr (c, mkStore (users s) (inviteCodes s)
                        (filter (fun r => negb (Z.eqb (challenge_userId r) userId))
                                (signingChallenges s)))
    end.

Definition overwrite (message publicKey : string) (now : Z)
    (c : SigningChallenge) : SigningChallenge :=
  mkSigningChallenge (challenge_userId c) publicKey message now.

(** [upsert({ where: { userId }, update: { message, publicKey },
              create: { message, userId, publicKey } })].
    Modelled from the spec: the row's last-updated timestamp is set to
    the time of the write by the schema (not part of the sources). *)
Definition upsert (userId : Z) (message publicKey : string) (now : Z)
    (s : Store) : SigningChallenge * Store :=
  match findFirst userId s with
  | Some c =>
      (overwrite message publicKey now c,
       mkStore (users s) (inviteCodes s)
               (map (fun r => if Z.eqb (challenge_userId r) userId
                              then overwrite message publicKey now r else r)
                    (signingChallenges s)))
  | None =>
      let row := mkSigningChallenge userId publicKey message now in
      (row, mkStore (users s) (inviteCodes s) (signingChallenges s ++ [row]))
  end.

End signingChallenge.

End prisma.

(** ** External collaborators *)

(** A linked account of the identity provider: a wallet, or an account of
    another [type] (email, phone, ...). *)
Inductive LinkedAccount : Set :=
| WalletAccount (address : string) (walletClientType connectorType : option string)
| OtherAccount (type : string).

Record PrivyUser : Set := mkPrivyUser {
  privy_id : string;
  linkedAccounts : list LinkedAccount
}.

(** [account.type === "wallet" && account.walletClientType === "privy"
     && account.connectorType === "embedded"] *)
Definition isEmbeddedWallet (account : LinkedAccount) : bool :=
  match account with
  | WalletAccount _ walletClientType connectorType =>
      optEqb walletClientType "privy" && optEqb connectorType "embedded"
  | OtherAccount _ => false
  end.

(** The [address] field read through the cast [as Wallet]. *)
Definition wallet_address (account : LinkedAccount) : string :=
  match account with
  | WalletAccount address _ _ => address
  | OtherAccount _ => EmptyString
  end.

(** How a call to a side effect ends; either way it may have written. *)
Inductive Completion : Set :=
| Returns
| Throws.

(** [differenceInMinutes] of date-fns: full minutes between two instants
    (milliseconds since the epoch), rounded towards zero. *)
Definition differenceInMinutes (dateLeft dateRight : Z) : Z :=
  Z.quot (dateLeft - dateRight) 60000.

Definition LF : string := String "010" EmptyString.

(** ** The service functions *)

Section Registration.

(** [privyClient.getUser] *)
Variable privyClient_getUser : string -> option PrivyUser.

(** The callback of the registration transaction. *)
Definition createUserTx (privyUser : PrivyUser) (existingCode : InviteCode)
    (address : string) : Tx User :=
  (newUser <- prisma.user.create (privy_id privyUser) (code_id existingCode) address true ;;
   prisma.inviteCode.update_used (code_id existingCode) (code_used existingCode + 1) ;;;
   tx_ret newUser)%tx.

Definition createUser (privyUserId inviteCode : string) (s : Store)
    : Outcome User * Store :=
  let inviteCode := JsString.trim inviteCode in
  match privyClient_getUser privyUserId with
  | None => (Error UNAUTHORIZED, s)
  | Some privyUser =>
      match prisma.user.findUnique privyUserId s with
      | Some _ => (Error USER_ALREADY_EXISTS, s)
      | None =>
          match find isEmbeddedWallet (linkedAccounts privyUser) with
          | None => (Error WALLET_MISSING, s)
          | Some embeddedWallet =>
              let address := JsString.toLowerCase (wallet_address embeddedWallet) in
              match prisma.inviteCode.findUnique inviteCode s with
              | None => (Error INVALID_INVITE_CODE, s)
              | Some existingCode =>
                  if negb (code_isActive existingCode) then (Error INVALID_INVITE_CODE, s)
                  else if code_maxUses existingCode <=? code_used existingCode
                  then (Error CODE_ALREADY_USED, s)
                  else
                    match prisma.transaction (createUserTx privyUser existingCode address) s with
                    | (inl e, s1) => (Rejects e, s1)
                    | (inr newUser, s1) => (Data newUser, s1)
                    end
              end
          end
      end
  end.

End Registration.

Section WalletLinking.

(** [viemClient.verifyMessage({ address, message, signature })] *)
Variable viemClient_verifyMessage : string -> string -> string -> bool.

(** The profile enrichment and the recommendation recomputation live in
    other files of the repository; each takes the store to the store it
    leaves and may throw. *)
Variable updateUserSocialProfiles : Z -> string -> Store -> Completion * Store.
Variable updateRecommendations : string -> Store -> Completion * Store.

(** The callback of the linking transaction. *)
Definition linkNewWalletTx (existingUser : User) (challenge : SigningChallenge) : Tx User :=
  (prisma.signingChallenge.delete (user_id existingUser) ;;;
   prisma.user.update_socialWallet (user_id existingUser)
     (JsString.toLowerCase (challenge_publicKey challenge)))%tx.

(** The [try { ... } catch (err) { console.error(...) }] block: a throw of
    the first call skips the second and is swallowed; the second call is
    not awaited and its failure is swallowed as well. *)
Definition refreshAfterLink (user : User) (challenge : SigningChallenge) (s : Store) : Store :=
  match updateUserSocialProfiles (user_id user)
          (JsString.toLowerCase (challenge_publicKey challenge)) s with
  | (Throws, s1) => s1
  | (Returns, s1) =>
      snd (updateRecommendations (JsString.toLowerCase (challenge_publicKey challenge)) s1)
  end.

(** [now] is the reading of [new Date()]. *)
Definition linkNewWallet (privyUserId signedMessage : string) (now : Z) (s : Store)
    : Outcome User * Store :=
  match prisma.user.findUnique privyUserId s with
  | None => (Rejects RecordNotFound, s)
  | Some existingUser =>
      match prisma.signingChallenge.findFirst (user_id existingUser) s with
      | None => (Rejects RecordNotFound, s)
      | Some challenge =>
          if 15 <? Z.abs (differenceInMinutes now (challenge_updatedAt challenge))
          then (Error CHALLENGE_EXPIRED, s)
          else if negb (viemClient_verifyMessage (challenge_publicKey challenge)
                          (challenge_message challenge) signedMessage)
          then (Error INVALID_SIGNATURE, s)
          else
            match prisma.transaction (linkNewWalletTx existingUser challenge) s with
            | (inl e, s1) => (Rejects e, s1)
            | (inr user, s1) => (Data user, refreshAfterLink user challenge s1)
            end
      end
  end.

End WalletLinking.

(** The message a caller has to sign; [now] is the reading of [Date.now()]. *)
Definition challengeMessage (now : Z) (publicKey : string) : string :=
  (LF ++ "I'm verifying the ownership of this wallet for builderfi." ++ LF
   ++ "Timestamp: " ++ JsString.ofNumber now ++ LF
   ++ "Wallet: " ++ publicKey ++ LF ++ "  ")%string.

Definition generateChallenge (privyUserId publicKey : string) (now : Z) (s : Store)
    : Outcome SigningChallenge * Store :=
  match prisma.user.findUnique privyUserId s with
  | None => (Rejects RecordNotFound, s)
  | Some user =>
      let challenge := challengeMessage now publicKey in
      let (res, s1) := prisma.signingChallenge.upsert (user_id user) challenge publicKey now s in
      (Data res, s1)
  end.

Definition checkUsersExist (wallets : list string) (s : Store) : Outcome (list User) * Store :=
  let addresses := map JsString.toLowerCase wallets in
  (Data (prisma.user.findMany_socialWallet_in addresses s), s).

(** ** Stores of interest *)

(** The store a committed registration leaves. *)
Definition registered (privyUser : PrivyUser) (existingCode : InviteCode)
    (address : string) (s : Store) : User * Store :=
  let newUser := mkUser (prisma.user.nextId s) (privy_id privyUser) address None
                        (Some (code_id existingCode)) true in
  (newUser,
   mkStore (users s ++ [newUser])
           (map (fun r => if Z.eqb (code_id r) (code_id existingCode)
                          then prisma.inviteCode.setUsed (code_used existingCode + 1) r
                          else r)
                (inviteCodes s))
           (signingChallenges s)).

(** The store a committed link leaves, before the side effects run. *)
Definition linked (existingUser : User) (challenge : SigningChallenge) (s : Store) : Store :=
  mkStore
    (map (fun r => if Z.eqb (user_id r) (user_id existingUser)
                   then prisma.user.setSocialWallet
                          (JsString.toLowerCase (challenge_publicKey challenge)) r
                   else r)
         (users s))
    (inviteCodes s)
    (filter (fun r => negb (Z.eqb (challenge_userId r) (user_id existingUser)))
            (signingChallenges s)).

(** At most one challenge row per user. *)
Definition oneChallengePerUser (s : Store) : Prop :=
  NoDup (map challenge_userId (signingChallenges s)).

Section Reachability.

Variable getUser : string -> option PrivyUser.
Variable verifyMessage : string -> string -> string -> bool.
Variable updateUserSocialProfiles : Z -> string -> Store -> Completion * Store.
Variable updateRecommendations : string -> Store -> Completion * Store.

(** The stores the service functions can produce, from a seeded store that
    holds no challenge yet. *)
Inductive reachable : Store -> Prop :=
| reach_seed (s : Store) :
    signingChallenges s = [] -> reachable s
| reach_createUser (s : Store) (privyUserId inviteCode : string) :
    reachable s -> reachable (snd (createUser getUser privyUserId inviteCode s))
| reach_generateChallenge (s : Store) (privyUserId publicKey : string) (now : Z) :
    reachable s -> reachable (snd (generateChallenge privyUserId publicKey now s))
| reach_linkNewWallet (s : Store) (privyUserId signedMessage : string) (now : Z) :
    reachable s ->
    reachable (snd (linkNewWallet verifyMessage updateUserSocialProfiles
                      updateRecommendations privyUserId signedMessage now s)).

End Reachability.

(** ** Sample data *)

Module Sample.

Definition alice : PrivyUser :=
  mkPrivyUser "did:privy:alice"
    [ OtherAccount "email";
      WalletAccount "0xC0FFEE" (Some "metamask"%string) (Some "injected"%string);
      WalletAccount "0xABCdef" (Some "privy"%string) (Some "embedded"%string) ].

Definition dave : PrivyUser :=
  mkPrivyUser "did:privy:dave"
    [ WalletAccount "0xDA7E00" (Some "privy"%string) (Some "embedded"%string) ].

Definition getUser (privyUserId : string) : option PrivyUser :=
  if String.eqb privyUserId "did:privy:alice" then Some alice
  else if String.eqb privyUserId "did:privy:dave" then Some dave
  else None.

(** One active code with a single use left. *)
Definition seeded : Store := mkStore [] [mkInviteCode 7 "ABC123" true 0 1] [].

(** One deactivated code whose single use is spent. *)
Definition retired : Store := mkStore [] [mkInviteCode 7 "ABC123" false 1 1] [].

(** A toy verifier: the signature of a message by an address spells both. *)
Definition sign (address message : string) : string :=
  ("signed:" ++ address ++ ":" ++ message)%string.

Definition verifyMessage (address message signature : string) : bool :=
  String.eqb signature (sign address message).

(** Side effects that do nothing, and side effects that throw at once. *)
Definition quietProfiles (_ : Z) (_ : string) (s : Store) : Completion * Store :=
  (Returns, s).
Definition quietRecommendations (_ : string) (s : Store) : Completion * Store :=
  (Returns, s).
Definition failingProfiles (_ : Z) (_ : string) (s : Store) : Completion * Store :=
  (Throws, s).

Definition t0 : Z := 1700000000000.

Definition aliceRow : User := mkUser 1 "did:privy:alice" "0xabcdef" None (Some 7) true.
Definition bobRow : User :=
  mkUser 2 "did:privy:bob" "0xb0b0b0" (Some "0xab12"%string) (Some 7) true.
Definition carolRow : User := mkUser 2 "did:privy:carol" "0xca401" None (Some 7) true.

(** Alice's pending challenge for the candidate address [0xAB12]. *)
Definition pending : SigningChallenge :=
  mkSigningChallenge 1 "0xAB12" (challengeMessage t0 "0xAB12") t0.

Definition joined : Store :=
  mkStore [aliceRow; carolRow] [mkInviteCode 7 "ABC123" true 2 5] [].

(** Alice has asked for a challenge; nobody holds the candidate address. *)
Definition members : Store :=
  mkStore [aliceRow; carolRow] [mkInviteCode 7 "ABC123" true 2 5] [pending].

(** As [members], but Bob already holds the candidate address. *)
Definition taken : Store :=
  mkStore [aliceRow; bobRow] [mkInviteCode 7 "ABC123" true 2 5] [pending].

Definition goodSignature : string := sign "0xAB12" (challengeMessage t0 "0xAB12").

End Sample.

(** Every stored wallet and social wallet is in lower case, the form the
    lookups compare with. *)
Definition lowerCased (s : Store) : Prop :=
  forall u, In u (users s) ->
    JsString.toLowerCase (user_wallet u) = user_wallet u
    /\ (forall w, user_socialWallet u = Some w -> JsString.toLowerCase w = w).

(** ** Display names

    [updateUser] tests a new display name against the regular expression
    [/^[A-Za-z][A-Za-z0-9_.]{2,19}$/].  Patterns are matched against the
    whole string by taking derivatives, character by character. *)

Module RegExp.

Inductive pattern : Type :=
| Fail
| Done
| Class (p : ascii -> bool)
| Then (r1 r2 : pattern)
| Or (r1 r2 : pattern)
| Repeat (p : ascii -> bool) (min extra : nat).

(** Does the pattern match the empty string? *)
Fixpoint nullable (r : pattern) : bool :=
  match r with
  | Fail => false
  | Done => true
  | Class _ => false
  | Then r1 r2 => nullable r1 && nullable r2
  | Or r1 r2 => nullable r1 || nullable r2
  | Repeat _ min _ => Nat.eqb min 0
  end.

(** What is left to match after the character [c]. *)
Fixpoint deriv (c : ascii) (r : pattern) : pattern :=
  match r with
  | Fail => Fail
  | Done => Fail
  | Class p => if p c then Done else Fail
  | Then r1 r2 =>
      if nullable r1 then Or (Then (deriv c r1) r2) (deriv c r2)
      else Then (deriv c r1) r2
  | Or r1 r2 => Or (deriv c r1) (deriv c r2)
  | Repeat p min extra =>
      if p c then
        match min, extra with
        | S m, _ => Repeat p m extra
        | O, S e => Repeat p O e
        | O, O => Fail
        end
      else Fail
  end.

(** [test], for a pattern anchored at both ends. *)
Fixpoint test (r : pattern) (s : string) : bool :=
  match s with
  | EmptyString => nullable r
  | String c rest => test (deriv c r) rest
  end.

Definition inRange (lo hi c : ascii) : bool :=
  Nat.leb (nat_of_ascii lo) (nat_of_ascii c) && Nat.leb (nat_of_ascii c) (nat_of_ascii hi).

(** [[A-Za-z]] *)
Definition letter (c : ascii) : bool := inRange "A" "Z" c || inRange "a" "z" c.

(** [[A-Za-z0-9_.]] *)
Definition nameChar (c : ascii) : bool :=
  inRange "A" "Z" c || inRange "a" "z" c || inRange "0" "9" c
  || Ascii.eqb c "_" || Ascii.eqb c ".".

(** [/^[A-Za-z][A-Za-z0-9_.]{2,19}$/] *)
Definition displayName : pattern := Then (Class letter) (Repeat nameChar 2 17).

End RegExp.

(** ** Profiles: the remaining columns and the relations of a user *)

(** A row of the [User] table with the columns the profile functions read
    and write besides those of registration and linking. *)
Record UserRow : Set := mkUserRow {
  row_core : User;
  row_displayName : option string;
  row_hasFinishedOnboarding : bool
}.

Record Reply : Set := mkReply {
  reply_id : Z;
  reply_repliedOn : option Z
}.

(** A user together with the rows its relations lead to, as a query with
    [include] sees it; social profiles and points stand by their keys. *)
Record Account : Set := mkAccount {
  account_user : UserRow;
  account_socialProfiles : list Z;
  account_replies : list Reply;
  account_inviteCodes : list InviteCode;
  account_points : list Z
}.

Record RecommendedUser : Set := mkRecommendedUser {
  rec_id : Z;
  rec_forId : Z;
  rec_userId : option Z;
  rec_wallet : string;
  rec_recommendationScore : Z
}.

Record Directory : Set := mkDirectory {
  accounts : list Account;
  recommendedUsers : list RecommendedUser
}.

Definition account_id (a : Account) : Z := user_id (row_core (account_user a)).
Definition account_privyUserId (a : Account) : string :=
  user_privyUserId (row_core (account_user a)).
Definition account_wallet (a : Account) : string :=
  user_wallet (row_core (account_user a)).

(** JavaScript truthiness of a nullable string: neither null nor empty. *)
Definition truthy (o : option string) : bool :=
  match o with
  | Some EmptyString => false
  | Some _ => true
  | None => false
  end.

Definition isSome {A} (o : option A) : bool :=
  match o with Some _ => true | None => false end.

(** *** [getCurrentUser] *)

Record CurrentUser : Set := mkCurrentUser {
  current_user : UserRow;
  current_inviteCodes : list InviteCode;
  current_socialProfiles : list Z;
  current_points : list Z
}.

Definition getCurrentUser (privyUserId : string) (d : Directory)
    : Outcome (option CurrentUser) :=
  let res :=
    option_map
      (fun a => mkCurrentUser (account_user a)
                  (filter code_isActive (account_inviteCodes a))
                  (account_socialProfiles a) (account_points a))
      (find (fun a => String.eqb (account_privyUserId a) privyUserId) (accounts d)) in
  Data res.

(** *** [getUser] *)

Definition getUser (wallet : string) (d : Directory) : Outcome (UserRow * list Z) :=
  let address := JsString.toLowerCase wallet in
  match find (fun a => String.eqb (account_wallet a) address) (accounts d) with
  | None => Error USER_NOT_FOUND
  | Some res => Data (account_user res, account_socialProfiles res)
  end.

(** *** [updateUser] *)

Record UpdateUserArgs : Set := mkUpdateUserArgs {
  arg_hasFinishedOnboarding : option bool;
  arg_displayName : option string
}.

(** [update({ data })]: a field left undefined keeps the stored value. *)
Definition applyUpdate (updatedUser : UpdateUserArgs) (r : UserRow) : UserRow :=
  mkUserRow (row_core r)
    (match arg_displayName updatedUser with
     | Some name => Some name
     | None => row_displayName r
     end)
    (match arg_hasFinishedOnboarding updatedUser with
     | Some b => b
     | None => row_hasFinishedOnboarding r
     end).

Definition updateAccount (updatedUser : UpdateUserArgs) (a : Account) : Account :=
  mkAccount (applyUpdate updatedUser (account_user a)) (account_socialProfiles a)
            (account_replies a) (account_inviteCodes a) (account_points a).

Definition updateUser (privyUserId : string) (updatedUser : UpdateUserArgs) (d : Directory)
    : Outcome UserRow * Directory :=
  match find (fun a => String.eqb (account_privyUserId a) privyUserId) (accounts d) with
  | None => (Rejects RecordNotFound, d)
  | Some existingUser =>
      let finish :=
        if match arg_hasFinishedOnboarding updatedUser with Some true => true | _ => false end
           && negb (truthy (row_displayName (account_user existingUser)))
           && negb (truthy (arg_displayName updatedUser))
        then (Error INVALID_REQUEST, d)
        else
          (Data (applyUpdate updatedUser (account_user existingUser)),
           mkDirectory
             (map (fun a => if String.eqb (account_privyUserId a) privyUserId
                            then updateAccount updatedUser a else a)
                  (accounts d))
             (recommendedUsers d)) in
      match arg_displayName updatedUser with
      | Some name =>
          if Nat.ltb 0 (List.length (account_socialProfiles existingUser))
          then (Error INVALID_REQUEST, d)
          else if negb (RegExp.test RegExp.displayName name)
          then (Error USERNAME_INVALID_FORMAT, d)
          else finish
      | None => finish
      end
  end.

(** *** [getBulkUsers] *)

Record BulkUser : Set := mkBulkUser {
  bulk_user : UserRow;
  bulk_questions : nat;
  bulk_replies : nat
}.

Definition countAnswered (replies : list Reply) : nat :=
  List.length (filter (fun reply => isSome (reply_repliedOn reply)) replies).

Definition getBulkUsers (addresses : list string) (d : Directory) : Outcome (list BulkUser) :=
  let usersWithReplies :=
    filter (fun a => existsb (String.eqb (account_wallet a)) addresses
                     && user_isActive (row_core (account_user a))
                     && row_hasFinishedOnboarding (account_user a))
           (accounts d) in
  let users :=
    map (fun user => mkBulkUser (account_user user)
                       (List.length (account_replies user))
                       (countAnswered (account_replies user)))
        usersWithReplies in
  Data users.

(** *** [getRecommendedUsers] and [getRecommendedUser] *)

(** [orderBy: { recommendationScore: "desc" }], by insertion. *)
Fixpoint insertByScore (r : RecommendedUser) (l : list RecommendedUser)
    : list RecommendedUser :=
  match l with
  | [] => [r]
  | x :: rest =>
      if rec_recommendationScore x <=? rec_recommendationScore r
      then r :: l
      else x :: insertByScore r rest
  end.

Definition orderByScoreDesc (l : list RecommendedUser) : list RecommendedUser :=
  fold_right insertByScore [] l.

Record Recommendation : Set := mkRecommendation {
  recommendation_rec : RecommendedUser;
  recommendation_wallet : string;
  recommendation_socialWallet : string;
  recommendation_userId : option Z;
  recommendation_questions : nat;
  recommendation_replies : nat
}.

Definition optZEqb (o : option Z) (z : Z) : bool :=
  match o with
  | Some v => Z.eqb v z
  | None => false
  end.

(** The entry built for one recommendation from the users fetched for them. *)
Definition describe (usersFromRecommendations : list Account) (rec : RecommendedUser)
    : Recommendation :=
  let foundUser := find (fun u => optZEqb (rec_userId rec) (account_id u))
                        usersFromRecommendations in
  mkRecommendation rec
    (match foundUser with
     | Some u => if truthy (Some (account_wallet u)) then account_wallet u else rec_wallet rec
     | None => rec_wallet rec
     end)
    (rec_wallet rec)
    (rec_userId rec)
    (match foundUser with Some u => List.length (account_replies u) | None => O end)
    (match foundUser with Some u => countAnswered (account_replies u) | None => O end).

Definition getRecommendedUsers (address : string) (d : Directory)
    : Outcome (list Recommendation) :=
  match find (fun a => String.eqb (account_wallet a) (JsString.toLowerCase address))
             (accounts d) with
  | None => Error USER_NOT_FOUND
  | Some user =>
      let recommendations :=
        orderByScoreDesc
          (filter (fun r => Z.eqb (rec_forId r) (account_id user)) (recommendedUsers d)) in
      let usersFromRecommendations :=
        filter (fun a => existsb (fun rec => optZEqb (rec_userId rec) (account_id a))
                                 recommendations)
               (accounts d) in
      Data (map (describe usersFromRecommendations) recommendations)
  end.

Definition getRecommendedUser (wallet : string) (d : Directory) : Outcome RecommendedUser :=
  let address := JsString.toLowerCase wallet in
  match find (fun r => String.eqb (rec_wallet r) address) (recommendedUsers d) with
  | None => Error USER_NOT_FOUND
  | Some res => Data res
  end.

(** ** Profile refresh *)

(** How an awaited service call ends when a side effect may throw. *)
Inductive Settled (A : Type) : Type :=
| Resolved (a : A)
| Failed (e : ERRORS)
| Thrown.

Arguments Resolved {A} a.
Arguments Failed {A} e.
Arguments Thrown {A}.

Section ProfileRefresh.

(** What the profile enrichment returns. *)
Variable Profiles : Type.

(** The enrichment with its result: [None] when it throws. *)
Variable updateUserSocialProfiles : Z -> string -> Store -> option Profiles * Store.
Variable updateRecommendations : string -> Store -> Completion * Store.

(** One round of the loop: the enrichment in its [try]/[catch]. *)
Definition refreshOne (s : Store) (user : User) : Store :=
  match user_socialWallet user with
  | Some socialWallet => snd (updateUserSocialProfiles (user_id user) socialWallet s)
  | None => s
  end.

(** The users are read once; the loop runs over those with a social wallet
    and the rows read at the start are returned. *)
Definition refreshAllUsersProfile (s : Store) : Outcome (list User) * Store :=
  let users := users s in
  (Data users,
   fold_left refreshOne (filter (fun user => truthy (user_socialWallet user)) users) s).

(** The enrichment is awaited outside any [try]; the recomputation is
    started and not awaited. *)
Definition refreshCurrentUserProfile (privyUserId : string) (s : Store)
    : Settled Profiles * Store :=
  match prisma.user.findUnique privyUserId s with
  | None => (Failed USER_NOT_FOUND, s)
  | Some user =>
      match user_socialWallet user with
      | None => (Failed NO_SOCIAL_PROFILE_FOUND, s)
      | Some socialWallet =>
          if negb (truthy (Some socialWallet)) then (Failed NO_SOCIAL_PROFILE_FOUND, s)
          else
            match updateUserSocialProfiles (user_id user) socialWallet s with
            | (None, s1) => (Thrown, s1)
            | (Some res, s1) =>
                (Resolved res,
                 snd (updateRecommendations (JsString.toLowerCase socialWallet) s1))
            end
      end
  end.

End ProfileRefresh.

(** ** The route of the candidate list *)

Section Route.

(** The payload the service resolves to, and JavaScript numbers. *)
Variable Payload : Type.
Variable JsNumber : Type.
Variable Number : string -> JsNumber.
Variable zero : JsNumber.

(** [getQuestionableUsers(privyUserId, search, offset)]: [None] when it throws. *)
Variable getQuestionableUsers : string -> option string -> JsNumber -> option Payload.

(** What the handler reads of a request: the [privyUserId] header and the
    [offset] and [search] parameters of the query string. *)
Record NextRequest : Set := mkNextRequest {
  header_privyUserId : option string;
  searchParam_offset : option string;
  searchParam_search : option string
}.

Inductive Json : Type :=
| JsonError (e : ERRORS)
| JsonPayload (res : Payload).

Record NextResponse : Type := mkNextResponse {
  response_body : Json;
  response_status : Z
}.

Definition GET (req : NextRequest) : NextResponse :=
  let privyUserId := header_privyUserId req in
  let offset :=
    match searchParam_offset req with
    | Some text => Number text
    | None => zero
    end in
  let search :=
    if truthy (searchParam_search req) then searchParam_search req else None in
  match privyUserId with
  | None => mkNextResponse (JsonError INVALID_REQUEST) 400
  | Some id =>
      if negb (truthy (Some id)) then mkNextResponse (JsonError INVALID_REQUEST) 400
      else
        match getQuestionableUsers id search offset with
        | Some res => mkNextResponse (JsonPayload res) 200
        | None => mkNextResponse (JsonError SOMETHING_WENT_WRONG) 500
        end
  end.

End Route.

(** ** Predicates on stores and directories *)

(** A text without line feed, as the decimal rendering of a number is. *)
Definition noLineFeed (s : string) : Prop :=
  forall c, In c (list_ascii_of_string s) -> c <> "010"%char.

(** A user that has finished onboarding has a display name. *)
Definition onboardedHaveName (d : Directory) : Prop :=
  forall a, In a (accounts d) ->
    row_hasFinishedOnboarding (account_user a) = true ->
    truthy (row_displayName (account_user a)) = true.

(** Scores never rise along the list. *)
Definition descending (l : list RecommendedUser) : Prop :=
  StronglySorted (fun a b => rec_recommendationScore b <= rec_recommendationScore a) l.

(** ** Sample directory *)

Module SampleDirectory.

Definition aliceAccount : Account :=
  mkAccount (mkUserRow Sample.aliceRow None false) []
            [mkReply 1 (Some 1700000100000); mkReply 2 None; mkReply 3 (Some 1700000200000)]
            [mkInviteCode 8 "ALICE1" true 0 3; mkInviteCode 9 "ALICE2" false 3 3] [].

Definition carolAccount : Account :=
  mkAccount (mkUserRow Sample.carolRow (Some "carol.eth"%string) true) [41]
            [mkReply 4 None] [] [].

Definition directory : Directory :=
  mkDirectory [aliceAccount; carolAccount]
    [ mkRecommendedUser 1 1 (Some 2) "0xca401" 10;
      mkRecommendedUser 2 1 None "0xfeed" 30;
      mkRecommendedUser 3 2 (Some 1) "0xabcdef" 5;
      mkRecommendedUser 4 1 (Some 7) "0xbeef" 20 ].

Definition rename : UpdateUserArgs := mkUpdateUserArgs (Some true) (Some "alice_01"%string).

End SampleDirectory.

(** * Properties *)

(** ** Lists as tables *)

Lemma find_map_stable {A} (p : A -> bool) (f : A -> A) (l : list A) :
  (forall x, p (f x) = p x) ->
  find p (map f l) = option_map f (find p l).
Proof.
  intros Hp. induction l as [|x l IH]; simpl; [reflexivity|].
  rewrite Hp. destruct (p x); [reflexivity | exact IH].
Qed.

Lemma find_app_miss {A} (p : A -> bool) (l : list A) (x : A) :
  find p l = None -> find p (l ++ [x]) = if p x then Some x else None.
Proof.
  induction l as [|y l IH]; simpl; [reflexivity|].
  destruct (p y); [discriminate | exact IH].
Qed.

Lemma map_key_stable {A} (key : A -> Z) (f : A -> A) (l : list A) :
  (forall x, key (f x) = key x) -> map key (map f l) = map key l.
Proof.
  intros Hk. rewrite map_map. apply map_ext. exact Hk.
Qed.

(** With a unique key, the row carrying a key is the row a lookup finds. *)
Lemma NoDup_key_inj {A} (key : A -> Z) (l : list A) (x y : A) :
  NoDup (map key l) -> In x l -> In y l -> key x = key y -> x = y.
Proof.
  induction l as [|z l IH]; simpl; [contradiction|].
  intros Hnd Hx Hy Hk. inversion Hnd as [|? ? Hnot Hnd']; subst.
  destruct Hx as [->|Hx], Hy as [->|Hy]; trivial.
  - exfalso. apply Hnot. rewrite Hk. now apply in_map.
  - exfalso. apply Hnot. rewrite <- Hk. now apply in_map.
  - now apply IH.
Qed.

(** ** Transactions *)

Lemma transaction_rollback {A} (body : Tx A) (s s1 : Store) (e : PrismaError) :
  prisma.transaction body s = (inl e, s1) -> s1 = s.
Proof.
  unfold prisma.transaction. destruct (body s) as [e'|[a s']]; congruence.
Qed.

Lemma transaction_commit {A} (body : Tx A) (s s1 : Store) (a : A) :
  prisma.transaction body s = (inr a, s1) -> body s = inr (a, s1).
Proof.
  unfold prisma.transaction. destruct (body s) as [e'|[a' s']]; congruence.
Qed.

(** ** Strings *)

Lemma isEmbeddedWallet_spec (account : LinkedAccount) :
  isEmbeddedWallet account = true <->
  exists address, account = WalletAccount address (Some "privy"%string) (Some "embedded"%string).
Proof.
  split.
  - destruct account as [address [w|] [c|]|t]; simpl; try discriminate.
    + intros H. apply andb_true_iff in H as [Hw Hc].
      apply String.eqb_eq in Hw, Hc. subst. now exists address.
    + rewrite andb_false_r. discriminate.
  - intros [address ->]. reflexivity.
Qed.

Lemma optEqb_spec (o : option string) (w : string) :
  optEqb o w = true <-> o = Some w.
Proof.
  destruct o as [v|]; simpl.
  - rewrite String.eqb_eq. split; congruence.
  - split; discriminate.
Qed.

(** ** Registration *)

Lemma nextId_fresh (s : Store) (u : User) :
  In u (users s) -> user_id u < prisma.user.nextId s.
Proof.
  unfold prisma.user.nextId. induction (users s) as [|x l IH]; [contradiction|].
  cbn [map fold_right In]. intros [->|Hin]; [lia|]. apply IH in Hin. lia.
Qed.

(** The row a lookup by code returns carries an id that a lookup by id finds. *)
Lemma inviteCode_found_by_id (code : string) (s : Store) (c : InviteCode) :
  prisma.inviteCode.findUnique code s = Some c ->
  find (fun r => Z.eqb (code_id r) (code_id c)) (inviteCodes s) <> None.
Proof.
  unfold prisma.inviteCode.findUnique. intros Hf Hnone.
  apply find_some in Hf as [Hin _].
  apply (find_none _ _ Hnone) in Hin. simpl in Hin.
  rewrite Z.eqb_refl in Hin. discriminate.
Qed.

Lemma createUserTx_run (privyUser : PrivyUser) (code : string) (c : InviteCode)
    (address : string) (s : Store) :
  prisma.inviteCode.findUnique code s = Some c ->
  createUserTx privyUser c address s =
    if prisma.user.createConflict (privy_id privyUser) address s
    then inl UniqueConstraintFailed
    else inr (registered privyUser c address s).
Proof.
  intros Hc. unfold createUserTx, tx_bind, prisma.user.create.
  destruct (prisma.user.createConflict _ _ s); [reflexivity|].
  unfold prisma.inviteCode.update_used, tx_ret. simpl.
  destruct (find _ (inviteCodes s)) eqn:Hid.
  - reflexivity.
  - exfalso. exact (inviteCode_found_by_id _ _ _ Hc Hid).
Qed.

Section RegistrationFacts.

Variable getUser : string -> option PrivyUser.

(** Every call ends in one of three ways. *)
Lemma createUser_cases (privyUserId inviteCode : string) (s : Store) :
  (exists e, createUser getUser privyUserId inviteCode s = (Error e, s))
  \/ (exists e, createUser getUser privyUserId inviteCode s = (Rejects e, s))
  \/ (exists privyUser embeddedWallet existingCode,
        getUser privyUserId = Some privyUser
        /\ prisma.user.findUnique privyUserId s = None
        /\ find isEmbeddedWallet (linkedAccounts privyUser) = Some embeddedWallet
        /\ prisma.inviteCode.findUnique (JsString.trim inviteCode) s = Some existingCode
        /\ code_isActive existingCode = true
        /\ code_used existingCode < code_maxUses existingCode
        /\ createUser getUser privyUserId inviteCode s =
             (Data (fst (registered privyUser existingCode
                           (JsString.toLowerCase (wallet_address embeddedWallet)) s)),
              snd (registered privyUser existingCode
                     (JsString.toLowerCase (wallet_address embeddedWallet)) s))).
Proof.
  unfold createUser.
  destruct (getUser privyUserId) as [pu|] eqn:Hpu; [|left; eauto].
  destruct (prisma.user.findUnique privyUserId s) as [u|] eqn:Hu; [left; eauto|].
  destruct (find isEmbeddedWallet (linkedAccounts pu)) as [w|] eqn:Hw; [|left; eauto].
  destruct (prisma.inviteCode.findUnique (JsString.trim inviteCode) s) as [c|] eqn:Hc;
    [|left; eauto].
  destruct (code_isActive c) eqn:Hact; simpl; [|left; eauto].
  destruct (code_maxUses c <=? code_used c) eqn:Hcap; [left; eauto|].
  apply Z.leb_gt in Hcap.
  unfold prisma.transaction. rewrite (createUserTx_run _ _ _ _ _ Hc).
  destruct (prisma.user.createConflict _ _ s).
  - right; left; eauto.
  - right; right. exists pu, w, c. simpl. repeat split; trivial.
Qed.

(** C1 -- A successful registration creates one [User] row that references
    the invite code and carries the lower-cased embedded-wallet address, and
    raises the [used] counter of that code by exactly one; a call that does
    not succeed leaves the whole store as it was, so neither write is ever
    kept without the other. *)
Theorem createUser_registers_atomically (privyUserId inviteCode : string) (s : Store) :
  let out := createUser getUser privyUserId inviteCode s in
  (forall newUser, fst out = Data newUser ->
     exists privyUser embeddedWallet existingCode,
       getUser privyUserId = Some privyUser
       /\ find isEmbeddedWallet (linkedAccounts privyUser) = Some embeddedWallet
       /\ prisma.inviteCode.findUnique (JsString.trim inviteCode) s = Some existingCode
       /\ users (snd out) = users s ++ [newUser]
       /\ user_invitedById newUser = Some (code_id existingCode)
       /\ user_wallet newUser = JsString.toLowerCase (wallet_address embeddedWallet)
       /\ prisma.inviteCode.findUnique (JsString.trim inviteCode) (snd out) =
            Some (prisma.inviteCode.setUsed (code_used existingCode + 1) existingCode)
       /\ List.length (inviteCodes (snd out)) = List.length (inviteCodes s)
       /\ (forall r, In r (inviteCodes s) -> code_id r <> code_id existingCode ->
                     In r (inviteCodes (snd out)))
       /\ (exists updated,
             prisma.inviteCode.findUnique (JsString.trim inviteCode) (snd out)
             = Some updated
             /\ code_used updated = code_used existingCode + 1
             /\ code_id updated = code_id existingCode
             /\ code_code updated = code_code existingCode
             /\ code_isActive updated = code_isActive existingCode
             /\ code_maxUses updated = code_maxUses existingCode)
       /\ (forall r, In r (inviteCodes (snd out)) -> code_id r = code_id existingCode ->
                     code_used r = code_used existingCode + 1)
       /\ user_privyUserId newUser = privy_id privyUser
       /\ user_socialWallet newUser = None
       /\ signingChallenges (snd out) = signingChallenges s)
  /\ (isData (fst out) = false -> snd out = s).
Proof.
  intros out. subst out.
  destruct (createUser_cases privyUserId inviteCode s)
    as [[e He]|[[e He]|(pu & w & c & Hpu & Hu & Hw & Hc & Hact & Hcap & He)]];
    rewrite He; simpl; split; try discriminate; trivial.
  intros newUser Hnew. injection Hnew as <-.
  assert (Hlook :
    prisma.inviteCode.findUnique (JsString.trim inviteCode)
      (mkStore
         (users s ++
          [mkUser (prisma.user.nextId s) (privy_id pu)
             (JsString.toLowerCase (wallet_address w)) None (Some (code_id c)) true])
         (map (fun r => if code_id r =? code_id c
                        then prisma.inviteCode.setUsed (code_used c + 1) r else r)
              (inviteCodes s))
         (signingChallenges s))
    = Some (prisma.inviteCode.setUsed (code_used c + 1) c)).
  { unfold prisma.inviteCode.findUnique in *. simpl.
    rewrite find_map_stable.
    - rewrite Hc. simpl. now rewrite Z.eqb_refl.
    - intros x. now destruct (code_id x =? code_id c). }
  exists pu, w, c.
  split; [exact Hpu|]. split; [exact Hw|]. split; [exact Hc|].
  split; [reflexivity|]. split; [reflexivity|]. split; [reflexivity|].
  split; [exact Hlook|]. split; [apply length_map|]. split.
  { intros r Hin Hid. apply in_map_iff. exists r. split; trivial.
    apply Z.eqb_neq in Hid. now rewrite Hid. }
  split.
  { exists (prisma.inviteCode.setUsed (code_used c + 1) c).
    split; [exact Hlook|]. repeat split. }
  split.
  { intros r Hin Hid. apply in_map_iff in Hin as (r0 & <- & Hr0).
    destruct (code_id r0 =? code_id c) eqn:Hr; [reflexivity|].
    apply Z.eqb_neq in Hr. contradiction. }
  repeat split.
Qed.

(** C2 -- The checks of [createUser] run in a fixed order and the first one
    that fails decides the error: unresolvable identity, existing user, no
    embedded wallet among the linked accounts, trimmed code absent or
    inactive, code at its cap.  No call that returns an error writes. *)
Theorem createUser_validation_order (privyUserId inviteCode : string) (s : Store) :
  let out := createUser getUser privyUserId inviteCode s in
  (getUser privyUserId = None -> fst out = Error UNAUTHORIZED)
  /\ (forall privyUser, getUser privyUserId = Some privyUser ->
      (forall u, prisma.user.findUnique privyUserId s = Some u ->
                 fst out = Error USER_ALREADY_EXISTS)
      /\ (prisma.user.findUnique privyUserId s = None ->
          ((forall a, In a (linkedAccounts privyUser) -> isEmbeddedWallet a = false) ->
           fst out = Error WALLET_MISSING)
          /\ (forall w, In w (linkedAccounts privyUser) -> isEmbeddedWallet w = true ->
              (prisma.inviteCode.findUnique (JsString.trim inviteCode) s = None ->
               fst out = Error INVALID_INVITE_CODE)
              /\ (forall c, prisma.inviteCode.findUnique (JsString.trim inviteCode) s = Some c ->
                  (code_isActive c = false -> fst out = Error INVALID_INVITE_CODE)
                  /\ (code_isActive c = true -> code_used c >= code_maxUses c ->
                      fst out = Error CODE_ALREADY_USED)
                  /\ (code_isActive c = true -> code_used c < code_maxUses c ->
                      forall e, fst out <> Error e)))))
  /\ (forall e, fst out = Error e -> snd out = s).
Proof.
  intros out. subst out. unfold createUser.
  destruct (getUser privyUserId) as [pu|] eqn:Hpu.
  2:{ repeat split; trivial; intros; discriminate. }
  split; [discriminate|]. split.
  2:{ destruct (createUser_cases privyUserId inviteCode s)
        as [[e He]|[[e He]|(pu' & w & c & _ & _ & _ & _ & _ & _ & He)]];
        unfold createUser in He; rewrite Hpu in He; rewrite He; simpl;
        intros e'; trivial; discriminate. }
  intros privyUser Heq. injection Heq as <-.
  destruct (prisma.user.findUnique privyUserId s) as [u|] eqn:Hu.
  { split; [trivial | discriminate]. }
  split; [discriminate|]. intros _.
  destruct (find isEmbeddedWallet (linkedAccounts pu)) as [w|] eqn:Hw.
  2:{ split; [trivial|]. intros w Hin Hemb.
      apply (find_none _ _ Hw) in Hin. congruence. }
  split.
  { intros Hnone. apply find_some in Hw as [Hin Hemb].
    apply Hnone in Hin. congruence. }
  intros _ _ _.
  destruct (prisma.inviteCode.findUnique (JsString.trim inviteCode) s) as [c|] eqn:Hc.
  2:{ split; [trivial | discriminate]. }
  split; [discriminate|]. intros c' Heq. injection Heq as <-.
  destruct (code_isActive c); simpl.
  2:{ repeat split; trivial; discriminate. }
  split; [discriminate|].
  destruct (code_maxUses c <=? code_used c) eqn:Hcap.
  - apply Z.leb_le in Hcap. split; [trivial|]. intros _ Hlt. lia.
  - apply Z.leb_gt in Hcap. split; [intros _ Hge; lia|]. intros _ _ e.
    destruct (prisma.transaction _ s) as [[e'|newUser] s1]; discriminate.
Qed.

(** C7 (amended) -- A registration attempt with a code whose [used] counter
    equals its cap never succeeds and leaves the store, hence the counter,
    unchanged; when the code is active and the identity checks pass, the
    error is [CODE_ALREADY_USED].  With unique row ids, every registration
    preserves [used <= maxUses] on every code. *)
Theorem createUser_cap_reached (privyUserId inviteCode : string) (s : Store) :
  let out := createUser getUser privyUserId inviteCode s in
  (forall c, prisma.inviteCode.findUnique (JsString.trim inviteCode) s = Some c ->
     code_used c = code_maxUses c ->
     isData (fst out) = false
     /\ snd out = s
     /\ (forall privyUser w,
           getUser privyUserId = Some privyUser ->
           prisma.user.findUnique privyUserId s = None ->
           In w (linkedAccounts privyUser) -> isEmbeddedWallet w = true ->
           code_isActive c = true ->
           fst out = Error CODE_ALREADY_USED))
  /\ (NoDup (map code_id (inviteCodes s)) ->
      (forall r, In r (inviteCodes s) -> code_used r <= code_maxUses r) ->
      forall r, In r (inviteCodes (snd out)) -> code_used r <= code_maxUses r).
Proof.
  intros out. split.
  - intros c Hc Hfull. subst out. unfold createUser. rewrite Hc.
    assert (Hleb : (code_maxUses c <=? code_used c) = true) by (apply Z.leb_le; lia).
    rewrite Hleb.
    destruct (getUser privyUserId) as [pu|] eqn:Hpu;
      [|simpl; repeat split; trivial; intros; discriminate].
    destruct (prisma.user.findUnique privyUserId s) as [u|] eqn:Hu;
      [simpl; repeat split; trivial; intros; discriminate|].
    destruct (find isEmbeddedWallet (linkedAccounts pu)) as [w|] eqn:Hw.
    + destruct (code_isActive c) eqn:Hact; simpl; repeat split; trivial.
      intros; discriminate.
    + simpl; repeat split; trivial.
      intros pu' w Heq _ Hin Hemb _. injection Heq as <-.
      apply (find_none _ _ Hw) in Hin. congruence.
  - intros Hnd Hinv r Hr. subst out.
    destruct (createUser_cases privyUserId inviteCode s)
      as [[e He]|[[e He]|(pu & w & c & Hpu & Hu & Hw & Hc & Hact & Hlt & He)]];
      rewrite He in Hr; simpl in Hr; auto.
    apply in_map_iff in Hr as (r0 & <- & Hr0).
    destruct (code_id r0 =? code_id c) eqn:Hid; [|auto].
    apply Z.eqb_eq in Hid.
    apply find_some in Hc as [Hcin _].
    assert (r0 = c) by (eapply NoDup_key_inj; eauto). subst r0.
    simpl. lia.
Qed.

End RegistrationFacts.

Example createUser_seeded :
  createUser Sample.getUser "did:privy:alice" "  ABC123 " Sample.seeded =
    (Data (mkUser 1 "did:privy:alice" "0xabcdef" None (Some 7) true),
     mkStore [mkUser 1 "did:privy:alice" "0xabcdef" None (Some 7) true]
             [mkInviteCode 7 "ABC123" true 1 1] []).
Proof. reflexivity. Qed.

Example createUser_second_attempt :
  let s1 := snd (createUser Sample.getUser "did:privy:alice" "ABC123" Sample.seeded) in
  createUser Sample.getUser "did:privy:alice" "ABC123" s1 = (Error USER_ALREADY_EXISTS, s1).
Proof. reflexivity. Qed.

(** A single-use code admits one user; the next caller is turned down and
    the counter stays at its cap. *)
Example createUser_code_spent :
  let s1 := snd (createUser Sample.getUser "did:privy:alice" "ABC123" Sample.seeded) in
  createUser Sample.getUser "did:privy:dave" "ABC123" s1 = (Error CODE_ALREADY_USED, s1).
Proof. reflexivity. Qed.

(** C7, as stated, fails: a deactivated code at its cap is turned down with
    [INVALID_INVITE_CODE], although the caller passes every identity check. *)
Lemma createUser_cap_reached_counterexample :
  prisma.inviteCode.findUnique (JsString.trim "ABC123") Sample.retired
    = Some (mkInviteCode 7 "ABC123" false 1 1)
  /\ code_used (mkInviteCode 7 "ABC123" false 1 1)
     = code_maxUses (mkInviteCode 7 "ABC123" false 1 1)
  /\ createUser Sample.getUser "did:privy:alice" "ABC123" Sample.retired
     = (Error INVALID_INVITE_CODE, Sample.retired)
  /\ fst (createUser Sample.getUser "did:privy:alice" "ABC123" Sample.retired)
     <> Error CODE_ALREADY_USED.
Proof. repeat split. discriminate. Qed.

(** ** Wallet linking *)

Lemma user_found_by_id (privyUserId : string) (s : Store) (u : User) :
  prisma.user.findUnique privyUserId s = Some u ->
  exists u', find (fun r => Z.eqb (user_id r) (user_id u)) (users s) = Some u'
             /\ user_id u' = user_id u.
Proof.
  unfold prisma.user.findUnique. intros Hf.
  apply find_some in Hf as [Hin _].
  destruct (find (fun r => Z.eqb (user_id r) (user_id u)) (users s)) as [u'|] eqn:Hid.
  - exists u'. split; trivial. apply find_some in Hid as [_ Hid]. now apply Z.eqb_eq.
  - apply (find_none _ _ Hid) in Hin. simpl in Hin.
    rewrite Z.eqb_refl in Hin. discriminate.
Qed.

Lemma socialWalletConflict_false (id : Z) (w : string) (s : Store) :
  prisma.user.socialWalletConflict id w s = false <->
  (forall u, In u (users s) -> user_id u <> id -> user_socialWallet u <> Some w).
Proof.
  unfold prisma.user.socialWalletConflict. split.
  - intros Hex u Hin Hid Hsw.
    assert (Htrue : existsb (fun u0 => negb (user_id u0 =? id)
                                       && optEqb (user_socialWallet u0) w) (users s) = true).
    { apply existsb_exists. exists u. split; trivial.
      apply Z.eqb_neq in Hid. rewrite Hid. simpl. now apply optEqb_spec. }
    congruence.
  - intros Hall.
    destruct (existsb _ (users s)) eqn:Hex; trivial.
    apply existsb_exists in Hex as (u & Hin & Hu).
    apply andb_true_iff in Hu as [Hid Hsw].
    apply negb_true_iff, Z.eqb_neq in Hid. apply optEqb_spec in Hsw.
    exfalso. exact (Hall u Hin Hid Hsw).
Qed.

Lemma linkNewWalletTx_run (privyUserId : string) (existingUser : User)
    (challenge : SigningChallenge) (s : Store) :
  prisma.user.findUnique privyUserId s = Some existingUser ->
  prisma.signingChallenge.findFirst (user_id existingUser) s = Some challenge ->
  exists u',
    find (fun r => Z.eqb (user_id r) (user_id existingUser)) (users s) = Some u'
    /\ linkNewWalletTx existingUser challenge s =
         if prisma.user.socialWalletConflict (user_id existingUser)
              (JsString.toLowerCase (challenge_publicKey challenge)) s
         then inl UniqueConstraintFailed
         else inr (prisma.user.setSocialWallet
                     (JsString.toLowerCase (challenge_publicKey challenge)) u',
                   linked existingUser challenge s).
Proof.
  intros Hu Hch. destruct (user_found_by_id _ _ _ Hu) as (u' & Hid & _).
  exists u'. split; trivial.
  unfold linkNewWalletTx, tx_bind, prisma.signingChallenge.delete. rewrite Hch.
  unfold prisma.user.update_socialWallet. simpl. rewrite Hid.
  unfold prisma.user.socialWalletConflict. simpl.
  destruct (existsb _ (users s)); reflexivity.
Qed.

Lemma find_filter_out {A} (p : A -> bool) (l : list A) :
  find p (filter (fun x => negb (p x)) l) = None.
Proof.
  induction l as [|x l IH]; simpl; trivial.
  destruct (p x) eqn:Hp; simpl; trivial. now rewrite Hp.
Qed.

Lemma linked_challenge_gone (existingUser : User) (challenge : SigningChallenge) (s : Store) :
  prisma.signingChallenge.findFirst (user_id existingUser)
    (linked existingUser challenge s) = None.
Proof.
  unfold prisma.signingChallenge.findFirst, linked. simpl.
  apply (find_filter_out (fun c => challenge_userId c =? user_id existingUser)).
Qed.

Lemma linked_user_row (existingUser u' : User) (challenge : SigningChallenge) (s : Store) :
  find (fun r => Z.eqb (user_id r) (user_id existingUser)) (users s) = Some u' ->
  find (fun r => Z.eqb (user_id r) (user_id existingUser))
       (users (linked existingUser challenge s)) =
    Some (prisma.user.setSocialWallet
            (JsString.toLowerCase (challenge_publicKey challenge)) u').
Proof.
  intros Hid. unfold linked. simpl. rewrite find_map_stable.
  - rewrite Hid. simpl.
    apply find_some in Hid as [_ Hid]. now rewrite Hid.
  - intros x. destruct (user_id x =? user_id existingUser) eqn:Hx; trivial.
Qed.

(** The expiry test counts full minutes: it fires from the sixteenth
    minute on, whichever of the two instants is the later one. *)
Lemma expired_iff (now updatedAt : Z) :
  (15 <? Z.abs (differenceInMinutes now updatedAt)) = true <->
  16 * 60000 <= Z.abs (now - updatedAt).
Proof.
  unfold differenceInMinutes. rewrite Z.ltb_lt.
  rewrite <- Z.quot_abs by lia.
  rewrite Z.quot_div_nonneg by lia.
  change (Z.abs 60000) with 60000.
  set (d := Z.abs (now - updatedAt)).
  split; intros H.
  - destruct (Z_lt_le_dec d (16 * 60000)) as [Hlt|Hle]; trivial.
    assert (d / 60000 < 16) by (apply Z.div_lt_upper_bound; lia). lia.
  - assert (16 <= d / 60000) by (apply Z.div_le_lower_bound; lia). lia.
Qed.

(** A challenge no older than fifteen minutes passes the expiry test. *)
Lemma fresh_within_window (now updatedAt : Z) :
  Z.abs (now - updatedAt) <= 15 * 60000 ->
  Z.abs (differenceInMinutes now updatedAt) <= 15.
Proof.
  intros Hwin. apply Z.ltb_ge.
  destruct (15 <? Z.abs (differenceInMinutes now updatedAt)) eqn:Hexp; trivial.
  apply expired_iff in Hexp. lia.
Qed.

Section WalletLinkingFacts.

Variable verifyMessage : string -> string -> string -> bool.
Variable updateUserSocialProfiles : Z -> string -> Store -> Completion * Store.
Variable updateRecommendations : string -> Store -> Completion * Store.

Local Abbreviation link :=
  (linkNewWallet verifyMessage updateUserSocialProfiles updateRecommendations).
Local Abbreviation refresh :=
  (refreshAfterLink updateUserSocialProfiles updateRecommendations).

(** The path a call takes once the caller and the challenge are found. *)
Lemma linkNewWallet_run (privyUserId signedMessage : string) (now : Z) (s : Store)
    (existingUser : User) (challenge : SigningChallenge) :
  prisma.user.findUnique privyUserId s = Some existingUser ->
  prisma.signingChallenge.findFirst (user_id existingUser) s = Some challenge ->
  exists u',
    find (fun r => Z.eqb (user_id r) (user_id existingUser)) (users s) = Some u'
    /\ link privyUserId signedMessage now s =
       let w := JsString.toLowerCase (challenge_publicKey challenge) in
       if 15 <? Z.abs (differenceInMinutes now (challenge_updatedAt challenge))
       then (Error CHALLENGE_EXPIRED, s)
       else if negb (verifyMessage (challenge_publicKey challenge)
                       (challenge_message challenge) signedMessage)
       then (Error INVALID_SIGNATURE, s)
       else if prisma.user.socialWalletConflict (user_id existingUser) w s
       then (Rejects UniqueConstraintFailed, s)
       else (Data (prisma.user.setSocialWallet w u'),
             refresh (prisma.user.setSocialWallet w u') challenge
                     (linked existingUser challenge s)).
Proof.
  intros Hu Hch.
  destruct (linkNewWalletTx_run _ _ _ _ Hu Hch) as (u' & Hid & Htx).
  exists u'. split; trivial.
  unfold linkNewWallet. rewrite Hu, Hch. simpl.
  destruct (15 <? _); trivial.
  destruct (negb _); trivial.
  unfold prisma.transaction. rewrite Htx.
  destruct (prisma.user.socialWalletConflict _ _ s); reflexivity.
Qed.

(** A call that does not return [data] has written nothing. *)
Lemma linkNewWallet_failure_frame (privyUserId signedMessage : string) (now : Z) (s : Store) :
  isData (fst (link privyUserId signedMessage now s)) = false ->
  snd (link privyUserId signedMessage now s) = s.
Proof.
  destruct (prisma.user.findUnique privyUserId s) as [eu|] eqn:Hu.
  - destruct (prisma.signingChallenge.findFirst (user_id eu) s) as [ch|] eqn:Hch.
    + destruct (linkNewWalletTx_run _ _ _ _ Hu Hch) as (u' & Hid & Htx).
      unfold linkNewWallet. rewrite Hu, Hch.
      destruct (15 <? _); trivial.
      destruct (negb _); trivial.
      unfold prisma.transaction. rewrite Htx.
      destruct (prisma.user.socialWalletConflict _ _ s); simpl; trivial.
      discriminate.
    + unfold link, linkNewWallet. now rewrite Hu, Hch.
  - unfold link, linkNewWallet. now rewrite Hu.
Qed.

(** C3 (amended) -- Once at least sixteen minutes lie between the clock and
    the challenge's last-updated timestamp, [linkNewWallet] fails with
    [CHALLENGE_EXPIRED] whatever the signature, writes nothing, and the
    challenge row is still there; below sixteen minutes it never reports
    expiry. *)
Theorem linkNewWallet_expired (privyUserId signedMessage : string) (now : Z) (s : Store)
    (existingUser : User) (challenge : SigningChallenge) :
  prisma.user.findUnique privyUserId s = Some existingUser ->
  prisma.signingChallenge.findFirst (user_id existingUser) s = Some challenge ->
  let out := link privyUserId signedMessage now s in
  (16 * 60000 <= Z.abs (now - challenge_updatedAt challenge) ->
     out = (Error CHALLENGE_EXPIRED, s)
     /\ prisma.signingChallenge.findFirst (user_id existingUser) (snd out) = Some challenge)
  /\ (Z.abs (now - challenge_updatedAt challenge) < 16 * 60000 ->
      fst out <> Error CHALLENGE_EXPIRED).
Proof.
  intros Hu Hch out. subst out.
  destruct (linkNewWallet_run privyUserId signedMessage now s _ _ Hu Hch) as (u' & _ & ->).
  simpl. split.
  - intros Hold. apply expired_iff in Hold. rewrite Hold. simpl. auto.
  - intros Hyoung.
    destruct (15 <? _) eqn:Hexp.
    + apply expired_iff in Hexp. lia.
    + destruct (negb _); [discriminate|].
      destruct (prisma.user.socialWalletConflict _ _ s); discriminate.
Qed.

(** C5 -- With a fresh challenge and a signature that does not verify
    against the stored message and the stored candidate address,
    [linkNewWallet] fails with [INVALID_SIGNATURE] and the store is left as
    it was: the caller's social wallet and the challenge row are unchanged. *)
Theorem linkNewWallet_invalid_signature (privyUserId signedMessage : string) (now : Z)
    (s : Store) (existingUser : User) (challenge : SigningChallenge) :
  prisma.user.findUnique privyUserId s = Some existingUser ->
  prisma.signingChallenge.findFirst (user_id existingUser) s = Some challenge ->
  Z.abs (differenceInMinutes now (challenge_updatedAt challenge)) <= 15 ->
  verifyMessage (challenge_publicKey challenge) (challenge_message challenge)
    signedMessage = false ->
  let out := link privyUserId signedMessage now s in
  out = (Error INVALID_SIGNATURE, s)
  /\ prisma.user.findUnique privyUserId (snd out) = Some existingUser
  /\ prisma.signingChallenge.findFirst (user_id existingUser) (snd out) = Some challenge.
Proof.
  intros Hu Hch Hfresh Hsig out. subst out.
  destruct (linkNewWallet_run privyUserId signedMessage now s _ _ Hu Hch) as (u' & _ & ->).
  simpl. apply Z.ltb_ge in Hfresh. rewrite Hfresh, Hsig. simpl. auto.
Qed.

(** C4 (amended) -- When the freshness check passes, the signature verifies
    against the stored message and the stored candidate address, and no
    other user already holds the lower-cased candidate address as social
    wallet, [linkNewWallet] returns the updated user.  Whenever it returns a
    user, the transaction has removed the caller's challenge row and set the
    caller's social wallet to the lower-cased candidate address, both in the
    store handed to the side effects.  When another user holds the address
    the call is rejected, and every call that does not return a user leaves
    the store untouched: no store carries one write without the other. *)
Theorem linkNewWallet_links_atomically (privyUserId signedMessage : string) (now : Z)
    (s : Store) :
  let out := link privyUserId signedMessage now s in
  (forall existingUser challenge,
     prisma.user.findUnique privyUserId s = Some existingUser ->
     prisma.signingChallenge.findFirst (user_id existingUser) s = Some challenge ->
     Z.abs (differenceInMinutes now (challenge_updatedAt challenge)) <= 15 ->
     verifyMessage (challenge_publicKey challenge) (challenge_message challenge)
       signedMessage = true ->
     ((forall u, In u (users s) -> user_id u <> user_id existingUser ->
         user_socialWallet u
           <> Some (JsString.toLowerCase (challenge_publicKey challenge))) ->
      isData (fst out) = true)
     /\ (prisma.user.socialWalletConflict (user_id existingUser)
           (JsString.toLowerCase (challenge_publicKey challenge)) s = true ->
         out = (Rejects UniqueConstraintFailed, s)))
  /\ (forall user, fst out = Data user ->
      exists existingUser challenge committed,
        prisma.user.findUnique privyUserId s = Some existingUser
        /\ prisma.signingChallenge.findFirst (user_id existingUser) s = Some challenge
        /\ snd out = refresh user challenge committed
        /\ prisma.signingChallenge.findFirst (user_id existingUser) committed = None
        /\ find (fun r => Z.eqb (user_id r) (user_id existingUser)) (users committed)
             = Some user
        /\ user_id user = user_id existingUser
        /\ user_socialWallet user
             = Some (JsString.toLowerCase (challenge_publicKey challenge))
        /\ inviteCodes committed = inviteCodes s
        /\ (forall c, In c (signingChallenges s) ->
              challenge_userId c <> user_id existingUser ->
              In c (signingChallenges committed))
        /\ (forall u, In u (users s) -> user_id u <> user_id existingUser ->
              In u (users committed)))
  /\ (isData (fst out) = false -> snd out = s).
Proof.
  intros out. subst out. split; [|split].
  - intros eu ch Hu Hch Hfresh Hsig.
    destruct (linkNewWallet_run privyUserId signedMessage now s _ _ Hu Hch) as (u' & _ & ->).
    simpl. apply Z.ltb_ge in Hfresh. rewrite Hfresh, Hsig. simpl. split.
    + intros Hfree. apply socialWalletConflict_false in Hfree. now rewrite Hfree.
    + intros Hconflict. now rewrite Hconflict.
  - intros user Hdata.
    destruct (prisma.user.findUnique privyUserId s) as [eu|] eqn:Hu.
    2:{ unfold linkNewWallet in Hdata. rewrite Hu in Hdata. discriminate. }
    destruct (prisma.signingChallenge.findFirst (user_id eu) s) as [ch|] eqn:Hch.
    2:{ unfold linkNewWallet in Hdata. rewrite Hu, Hch in Hdata. discriminate. }
    destruct (linkNewWallet_run privyUserId signedMessage now s _ _ Hu Hch)
      as (u' & Hid & Hrun).
    rewrite Hrun in *. simpl in *.
    destruct (15 <? _); [discriminate|].
    destruct (negb _); [discriminate|].
    destruct (prisma.user.socialWalletConflict _ _ s); [discriminate|].
    simpl in *. injection Hdata as <-.
    exists eu, ch, (linked eu ch s). repeat split; trivial.
    + apply linked_challenge_gone.
    + now apply linked_user_row.
    + simpl. apply find_some in Hid as [_ Hid]. now apply Z.eqb_eq.
    + intros c Hin Hother. unfold linked. simpl. apply filter_In. split; trivial.
      apply negb_true_iff. now apply Z.eqb_neq.
    + intros u Hin Hother. unfold linked. simpl. apply in_map_iff.
      exists u. split; trivial. apply Z.eqb_neq in Hother. now rewrite Hother.
  - apply linkNewWallet_failure_frame.
Qed.

(** C8 -- Once the transaction of [linkNewWallet] has committed, the call
    returns the updated user with the social wallet set, whatever the
    profile enrichment and the recommendation recomputation do: a throw of
    either is swallowed, and the store is the one the side effects were
    given, as far as they left it, never the store from before the link. *)
Theorem linkNewWallet_side_effects_contained (privyUserId signedMessage : string) (now : Z)
    (s : Store) (existingUser : User) (challenge : SigningChallenge)
    (user : User) (committed : Store) :
  prisma.user.findUnique privyUserId s = Some existingUser ->
  prisma.signingChallenge.findFirst (user_id existingUser) s = Some challenge ->
  Z.abs (differenceInMinutes now (challenge_updatedAt challenge)) <= 15 ->
  verifyMessage (challenge_publicKey challenge) (challenge_message challenge)
    signedMessage = true ->
  prisma.transaction (linkNewWalletTx existingUser challenge) s = (inr user, committed) ->
  let out := link privyUserId signedMessage now s in
  let w := JsString.toLowerCase (challenge_publicKey challenge) in
  fst out = Data user
  /\ user_socialWallet user = Some w
  /\ prisma.signingChallenge.findFirst (user_id existingUser) committed = None
  /\ (forall s1, updateUserSocialProfiles (user_id user) w committed = (Throws, s1) ->
        snd out = s1)
  /\ (forall s1 c s2, updateUserSocialProfiles (user_id user) w committed = (Returns, s1) ->
        updateRecommendations w s1 = (c, s2) -> snd out = s2).
Proof.
  intros Hu Hch Hfresh Hsig Htx out w. subst out w.
  unfold linkNewWallet. rewrite Hu, Hch.
  apply Z.ltb_ge in Hfresh. rewrite Hfresh, Hsig, Htx. simpl.
  apply transaction_commit in Htx.
  destruct (linkNewWalletTx_run _ _ _ _ Hu Hch) as (u' & Hid & Hrun).
  rewrite Hrun in Htx.
  destruct (prisma.user.socialWalletConflict _ _ s); [discriminate|].
  injection Htx as <- <-.
  repeat split; trivial.
  - apply linked_challenge_gone.
  - intros s1 Hthrow. unfold refreshAfterLink. simpl in *. now rewrite Hthrow.
  - intros s1 c s2 Hret Hrec. unfold refreshAfterLink. simpl in *.
    now rewrite Hret, Hrec.
Qed.

End WalletLinkingFacts.

(** ** Signing challenges *)

Lemma NoDup_map_filter {A} (key : A -> Z) (p : A -> bool) (l : list A) :
  NoDup (map key l) -> NoDup (map key (filter p l)).
Proof.
  induction l as [|x l IH]; simpl; trivial.
  intros Hnd. inversion Hnd as [|? ? Hnot Hnd']; subst.
  destruct (p x); simpl; auto.
  constructor; auto.
  intros Hin. apply Hnot. apply in_map_iff in Hin as (y & Hy & Hyin).
  apply filter_In in Hyin as [Hyin _]. rewrite <- Hy. now apply in_map.
Qed.

Lemma upsert_keeps_one (userId : Z) (message publicKey : string) (now : Z) (s : Store) :
  oneChallengePerUser s ->
  oneChallengePerUser (snd (prisma.signingChallenge.upsert userId message publicKey now s)).
Proof.
  unfold oneChallengePerUser, prisma.signingChallenge.upsert. intros Hnd.
  destruct (prisma.signingChallenge.findFirst userId s) as [c|] eqn:Hf; simpl.
  - rewrite map_key_stable; trivial.
    intros x. now destruct (challenge_userId x =? userId).
  - rewrite map_app. simpl. apply NoDup_app; repeat split; trivial.
    + constructor; [intros []|constructor].
    + intros k Hk [<-|[]]. apply in_map_iff in Hk as (c & Hc & Hin).
      apply (find_none _ _ Hf) in Hin. simpl in Hin.
      rewrite Hc, Z.eqb_refl in Hin. discriminate.
Qed.

Lemma generateChallenge_keeps_one (privyUserId publicKey : string) (now : Z) (s : Store) :
  oneChallengePerUser s ->
  oneChallengePerUser (snd (generateChallenge privyUserId publicKey now s)).
Proof.
  intros Hinv. unfold generateChallenge.
  destruct (prisma.user.findUnique privyUserId s) as [u|]; trivial.
  pose proof (upsert_keeps_one (user_id u) (challengeMessage now publicKey)
                publicKey now s Hinv) as Hup.
  destruct (prisma.signingChallenge.upsert _ _ _ _ s) as [res s1]. exact Hup.
Qed.

(** Issuing a challenge for a user who has one rewrites that row. *)
Lemma generateChallenge_overwrite (privyUserId publicKey : string) (now : Z) (s : Store)
    (user : User) (old : SigningChallenge) :
  prisma.user.findUnique privyUserId s = Some user ->
  prisma.signingChallenge.findFirst (user_id user) s = Some old ->
  generateChallenge privyUserId publicKey now s =
    (Data (mkSigningChallenge (user_id user) publicKey
             (challengeMessage now publicKey) now),
     mkStore (users s) (inviteCodes s)
       (map (fun r => if Z.eqb (challenge_userId r) (user_id user)
                      then prisma.signingChallenge.overwrite
                             (challengeMessage now publicKey) publicKey now r
                      else r)
            (signingChallenges s))).
Proof.
  intros Hu Hold. unfold generateChallenge, prisma.signingChallenge.upsert.
  rewrite Hu, Hold. unfold prisma.signingChallenge.overwrite.
  apply find_some in Hold as [_ Hid]. apply Z.eqb_eq in Hid. now rewrite Hid.
Qed.

(** With a unique key, at most one row carries a given key. *)
Lemma NoDup_key_count {A} (key : A -> Z) (l : list A) (k : Z) :
  NoDup (map key l) ->
  (List.length (filter (fun c => Z.eqb (key c) k) l) <= 1)%nat.
Proof.
  induction l as [|x l IH]; simpl; [lia|].
  intros Hnd. inversion Hnd as [|? ? Hnot Hnd']; subst.
  destruct (key x =? k) eqn:Hx; [|auto].
  apply Z.eqb_eq in Hx. simpl.
  destruct (filter (fun c => Z.eqb (key c) k) l) as [|y ys] eqn:Hf; [simpl; lia|].
  exfalso. apply Hnot.
  assert (Hy : In y (filter (fun c => Z.eqb (key c) k) l)) by (rewrite Hf; now left).
  apply filter_In in Hy as [Hyin Hyk]. apply Z.eqb_eq in Hyk.
  rewrite Hx, <- Hyk. now apply in_map.
Qed.

Lemma found_key_count {A} (p : A -> bool) (l : list A) (x : A) :
  find p l = Some x -> (1 <= List.length (filter p l))%nat.
Proof.
  intros Hf. apply find_some in Hf as [Hin Hp].
  assert (Hx : In x (filter p l)) by (now apply filter_In).
  destruct (filter p l); [contradiction | simpl; lia].
Qed.

Section ChallengeFacts.

Variable getUser : string -> option PrivyUser.
Variable verifyMessage : string -> string -> string -> bool.
Variable updateUserSocialProfiles : Z -> string -> Store -> Completion * Store.
Variable updateRecommendations : string -> Store -> Completion * Store.

(** The two side effects work on profiles and recommendations; they leave
    the table of signing challenges alone. *)
Hypothesis updateUserSocialProfiles_frame : forall id w s,
  signingChallenges (snd (updateUserSocialProfiles id w s)) = signingChallenges s.
Hypothesis updateRecommendations_frame : forall w s,
  signingChallenges (snd (updateRecommendations w s)) = signingChallenges s.

Local Abbreviation reachable :=
  (reachable getUser verifyMessage updateUserSocialProfiles updateRecommendations).

Lemma createUser_keeps_challenges (privyUserId inviteCode : string) (s : Store) :
  signingChallenges (snd (createUser getUser privyUserId inviteCode s))
    = signingChallenges s.
Proof.
  destruct (createUser_cases getUser privyUserId inviteCode s)
    as [[e He]|[[e He]|(pu & w & c & _ & _ & _ & _ & _ & _ & He)]];
    now rewrite He.
Qed.

Lemma refreshAfterLink_keeps_challenges (user : User) (challenge : SigningChallenge)
    (s : Store) :
  signingChallenges
    (refreshAfterLink updateUserSocialProfiles updateRecommendations user challenge s)
    = signingChallenges s.
Proof.
  unfold refreshAfterLink.
  pose proof (updateUserSocialProfiles_frame (user_id user)
                (JsString.toLowerCase (challenge_publicKey challenge)) s) as H1.
  destruct (updateUserSocialProfiles _ _ s) as [[|] s1]; simpl in H1.
  - now rewrite updateRecommendations_frame.
  - exact H1.
Qed.

Lemma linkNewWallet_keeps_one (privyUserId signedMessage : string) (now : Z) (s : Store) :
  oneChallengePerUser s ->
  oneChallengePerUser
    (snd (linkNewWallet verifyMessage updateUserSocialProfiles updateRecommendations
            privyUserId signedMessage now s)).
Proof.
  intros Hinv.
  destruct (prisma.user.findUnique privyUserId s) as [eu|] eqn:Hu.
  2:{ unfold linkNewWallet. now rewrite Hu. }
  destruct (prisma.signingChallenge.findFirst (user_id eu) s) as [ch|] eqn:Hch.
  2:{ unfold linkNewWallet. now rewrite Hu, Hch. }
  destruct (linkNewWallet_run verifyMessage updateUserSocialProfiles updateRecommendations
              privyUserId signedMessage now s _ _ Hu Hch) as (u' & _ & ->).
  simpl. destruct (15 <? _); trivial.
  destruct (negb _); trivial.
  destruct (prisma.user.socialWalletConflict _ _ s); trivial.
  unfold oneChallengePerUser. simpl.
  rewrite refreshAfterLink_keeps_challenges. simpl.
  now apply NoDup_map_filter.
Qed.

Lemma reachable_one_challenge (s : Store) : reachable s -> oneChallengePerUser s.
Proof.
  induction 1 as [s Hempty|s pid code _ IH|s pid pk now _ IH|s pid sig now _ IH].
  - unfold oneChallengePerUser. rewrite Hempty. constructor.
  - unfold oneChallengePerUser. now rewrite createUser_keeps_challenges.
  - now apply generateChallenge_keeps_one.
  - now apply linkNewWallet_keeps_one.
Qed.

(** C6 -- In every store the service functions can reach, a user has at
    most one signing challenge: no user id occurs twice in the table, so
    the rows of any user number at most one.  Issuing a challenge for a
    user who already has one replaces the message and the candidate address
    of that row and sets its timestamp to the time of the call, without
    adding a row: afterwards the user has exactly one row, the issued one. *)
Theorem one_challenge_per_user (s : Store) :
  reachable s ->
  (forall c1 c2, In c1 (signingChallenges s) -> In c2 (signingChallenges s) ->
     challenge_userId c1 = challenge_userId c2 -> c1 = c2)
  /\ (forall privyUserId publicKey now user old,
       prisma.user.findUnique privyUserId s = Some user ->
       prisma.signingChallenge.findFirst (user_id user) s = Some old ->
       let out := generateChallenge privyUserId publicKey now s in
       let issued := mkSigningChallenge (user_id user) publicKey
                       (challengeMessage now publicKey) now in
       reachable (snd out)
       /\ fst out = Data issued
       /\ prisma.signingChallenge.findFirst (user_id user) (snd out) = Some issued
       /\ List.length (signingChallenges (snd out)) = List.length (signingChallenges s)
       /\ (forall c, In c (signingChallenges (snd out)) ->
             challenge_userId c = user_id user -> c = issued)
       /\ (forall c, In c (signingChallenges s) -> challenge_userId c <> user_id user ->
             In c (signingChallenges (snd out)))
       /\ NoDup (map challenge_userId (signingChallenges (snd out)))
       /\ filter (fun c => Z.eqb (challenge_userId c) (user_id user))
                 (signingChallenges (snd out)) = [issued])
  /\ NoDup (map challenge_userId (signingChallenges s))
  /\ (forall userId,
        (List.length (filter (fun c => Z.eqb (challenge_userId c) userId)
                             (signingChallenges s)) <= 1)%nat).
Proof.
  intros Hreach. split; [|split; [|split]].
  - intros c1 c2 H1 H2 Hk.
    exact (NoDup_key_inj challenge_userId _ c1 c2 (reachable_one_challenge s Hreach) H1 H2 Hk).
  - intros pid pk now user old Hu Hold out issued.
    assert (Hreach' : reachable (snd out)) by (now apply reach_generateChallenge).
    assert (Hfound : prisma.signingChallenge.findFirst (user_id user) (snd out)
                     = Some issued).
    { subst out. rewrite (generateChallenge_overwrite pid pk now s user old Hu Hold).
      unfold prisma.signingChallenge.findFirst in *. simpl.
      rewrite find_map_stable.
      - rewrite Hold. simpl. unfold prisma.signingChallenge.overwrite.
        apply find_some in Hold as [_ Hid]. rewrite Hid.
        apply Z.eqb_eq in Hid. now rewrite Hid.
      - intros x. destruct (challenge_userId x =? user_id user) eqn:Hx; trivial. }
    split; [trivial|]. split; [|split; [trivial|split; [|split; [|split; [|split]]]]].
    + subst out. now rewrite (generateChallenge_overwrite pid pk now s user old Hu Hold).
    + subst out. rewrite (generateChallenge_overwrite pid pk now s user old Hu Hold).
      simpl. apply length_map.
    + intros c Hin Hk.
      apply find_some in Hfound as [Hissued _].
      apply (NoDup_key_inj challenge_userId _ c issued
               (reachable_one_challenge _ Hreach') Hin Hissued).
      now rewrite Hk.
    + intros c Hin Hother. subst out.
      rewrite (generateChallenge_overwrite pid pk now s user old Hu Hold). simpl.
      apply in_map_iff. exists c. split; trivial.
      apply Z.eqb_neq in Hother. now rewrite Hother.
    + exact (reachable_one_challenge _ Hreach').
    + pose proof (NoDup_key_count challenge_userId (signingChallenges (snd out))
                    (user_id user) (reachable_one_challenge _ Hreach')) as Hle.
      pose proof (found_key_count _ _ _ Hfound) as Hge.
      unfold prisma.signingChallenge.findFirst in Hfound.
      destruct (filter (fun c => challenge_userId c =? user_id user)
                       (signingChallenges (snd out))) as [|y [|z ys]] eqn:Hf;
        simpl in Hle, Hge; try lia.
      assert (Hy : In y (filter (fun c => challenge_userId c =? user_id user)
                                (signingChallenges (snd out))))
        by (rewrite Hf; now left).
      apply filter_In in Hy as [Hyin Hyk]. apply Z.eqb_eq in Hyk.
      apply find_some in Hfound as [Hissued _].
      f_equal.
      apply (NoDup_key_inj challenge_userId _ y issued
               (reachable_one_challenge _ Hreach') Hyin Hissued).
      now rewrite Hyk.
  - exact (reachable_one_challenge s Hreach).
  - intros userId. apply NoDup_key_count. exact (reachable_one_challenge s Hreach).
Qed.

End ChallengeFacts.


(** ** Existence check *)

(** C9 -- [checkUsersExist] returns exactly the stored users whose social
    wallet is the lower-cased form of one of the given addresses, and
    writes nothing; an address whose lower-cased form is no user's social
    wallet adds no row to the result. *)
Theorem checkUsersExist_subset (wallets : list string) (s : Store) :
  exists res,
    checkUsersExist wallets s = (Data res, s)
    /\ (forall u, In u res <->
          In u (users s)
          /\ exists a, In a wallets
                       /\ user_socialWallet u = Some (JsString.toLowerCase a))
    /\ (forall a, In a wallets ->
          (forall u, In u (users s) ->
             user_socialWallet u <> Some (JsString.toLowerCase a)) ->
          forall u, In u res -> user_socialWallet u <> Some (JsString.toLowerCase a)).
Proof.
  eexists. split; [reflexivity|].
  assert (Hiff : forall u,
    In u (prisma.user.findMany_socialWallet_in (map JsString.toLowerCase wallets) s) <->
    In u (users s)
    /\ exists a, In a wallets /\ user_socialWallet u = Some (JsString.toLowerCase a)).
  { intros u. unfold prisma.user.findMany_socialWallet_in. rewrite filter_In.
    split; intros [Hin Hmatch]; split; trivial.
    - apply existsb_exists in Hmatch as (w & Hw & Heq).
      apply in_map_iff in Hw as (a & <- & Ha).
      exists a. split; trivial. now apply optEqb_spec.
    - destruct Hmatch as (a & Ha & Heq).
      apply existsb_exists. exists (JsString.toLowerCase a). split.
      + now apply in_map.
      + now apply optEqb_spec. }
  split; [exact Hiff|].
  intros a _ Hnone u Hu. apply Hiff in Hu as [Hin _]. now apply Hnone.
Qed.

(** ** The properties on the sample data *)

Example generateChallenge_joined :
  generateChallenge "did:privy:alice" "0xAB12" Sample.t0 Sample.joined
  = (Data Sample.pending, Sample.members).
Proof. reflexivity. Qed.

(** The stored candidate address keeps its letter case, and the sample
    verifier, which tells the cases apart, accepts the signature only at
    the stored form. *)
Example stored_address_keeps_case :
  challenge_publicKey Sample.pending = "0xAB12"%string
  /\ JsString.toLowerCase (challenge_publicKey Sample.pending) = "0xab12"%string
  /\ Sample.verifyMessage "0xAB12" (challenge_message Sample.pending)
       Sample.goodSignature = true
  /\ Sample.verifyMessage "0xab12" (challenge_message Sample.pending)
       Sample.goodSignature = false
  /\ fst (linkNewWallet Sample.verifyMessage Sample.quietProfiles
            Sample.quietRecommendations
            "did:privy:alice" Sample.goodSignature (Sample.t0 + 60000) Sample.members)
     = Data (prisma.user.setSocialWallet "0xab12" Sample.aliceRow).
Proof. repeat split. Qed.

Example checkUsersExist_taken :
  checkUsersExist ["0xAB12"; "0xFFFF"]%string Sample.taken
  = (Data [Sample.bobRow], Sample.taken).
Proof. reflexivity. Qed.

(** C3, as stated, fails: fifteen and a half minutes after the challenge was
    issued the expiry test does not fire; with a valid signature the wallet
    is linked and the challenge row is removed. *)
Lemma linkNewWallet_expired_counterexample :
  prisma.user.findUnique "did:privy:alice" Sample.members = Some Sample.aliceRow
  /\ prisma.signingChallenge.findFirst 1 Sample.members = Some Sample.pending
  /\ 15 * 60000 < Z.abs ((Sample.t0 + 930000) - challenge_updatedAt Sample.pending)
  /\ linkNewWallet Sample.verifyMessage Sample.quietProfiles Sample.quietRecommendations
       "did:privy:alice" Sample.goodSignature (Sample.t0 + 930000) Sample.members
     = (Data (prisma.user.setSocialWallet "0xab12" Sample.aliceRow),
        mkStore [prisma.user.setSocialWallet "0xab12" Sample.aliceRow; Sample.carolRow]
                [mkInviteCode 7 "ABC123" true 2 5] [])
  /\ fst (linkNewWallet Sample.verifyMessage Sample.quietProfiles
            Sample.quietRecommendations
            "did:privy:alice" "0xbad" (Sample.t0 + 930000) Sample.members)
     = Error INVALID_SIGNATURE.
Proof. repeat split. Qed.

Lemma linkNewWallet_expired_witness :
  linkNewWallet Sample.verifyMessage Sample.quietProfiles Sample.quietRecommendations
    "did:privy:alice" Sample.goodSignature (Sample.t0 + 16 * 60000) Sample.members
  = (Error CHALLENGE_EXPIRED, Sample.members).
Proof.
  destruct (linkNewWallet_expired Sample.verifyMessage Sample.quietProfiles
              Sample.quietRecommendations "did:privy:alice" Sample.goodSignature
              (Sample.t0 + 16 * 60000) Sample.members Sample.aliceRow Sample.pending
              eq_refl eq_refl) as [Hold _].
  apply Hold. vm_compute. discriminate.
Defined.

(** C4, as stated, fails: the challenge is fresh and the signature
    verifies, yet Bob already holds the lower-cased address, the update is
    refused, and neither write is kept. *)
Lemma linkNewWallet_links_counterexample :
  prisma.user.findUnique "did:privy:alice" Sample.taken = Some Sample.aliceRow
  /\ prisma.signingChallenge.findFirst 1 Sample.taken = Some Sample.pending
  /\ Z.abs (differenceInMinutes (Sample.t0 + 60000) (challenge_updatedAt Sample.pending))
     <= 15
  /\ Sample.verifyMessage (challenge_publicKey Sample.pending)
       (challenge_message Sample.pending) Sample.goodSignature = true
  /\ linkNewWallet Sample.verifyMessage Sample.quietProfiles Sample.quietRecommendations
       "did:privy:alice" Sample.goodSignature (Sample.t0 + 60000) Sample.taken
     = (Rejects UniqueConstraintFailed, Sample.taken).
Proof. repeat split. vm_compute. discriminate. Qed.

Lemma linkNewWallet_invalid_signature_witness :
  linkNewWallet Sample.verifyMessage Sample.quietProfiles Sample.quietRecommendations
    "did:privy:alice" "0xbad" (Sample.t0 + 60000) Sample.members
  = (Error INVALID_SIGNATURE, Sample.members).
Proof.
  refine (proj1 (linkNewWallet_invalid_signature Sample.verifyMessage
                   Sample.quietProfiles Sample.quietRecommendations
                   "did:privy:alice" "0xbad" (Sample.t0 + 60000) Sample.members
                   Sample.aliceRow Sample.pending eq_refl eq_refl _ eq_refl)).
  vm_compute. discriminate.
Defined.

Lemma linkNewWallet_side_effects_contained_witness :
  fst (linkNewWallet Sample.verifyMessage Sample.failingProfiles
         Sample.quietRecommendations
         "did:privy:alice" Sample.goodSignature (Sample.t0 + 60000) Sample.members)
  = Data (prisma.user.setSocialWallet "0xab12" Sample.aliceRow)
  /\ snd (linkNewWallet Sample.verifyMessage Sample.failingProfiles
            Sample.quietRecommendations
            "did:privy:alice" Sample.goodSignature (Sample.t0 + 60000) Sample.members)
     = linked Sample.aliceRow Sample.pending Sample.members.
Proof.
  destruct (linkNewWallet_side_effects_contained Sample.verifyMessage
              Sample.failingProfiles Sample.quietRecommendations
              "did:privy:alice" Sample.goodSignature (Sample.t0 + 60000) Sample.members
              Sample.aliceRow Sample.pending
              (prisma.user.setSocialWallet "0xab12" Sample.aliceRow)
              (linked Sample.aliceRow Sample.pending Sample.members)
              eq_refl eq_refl)
    as (Hdata & _ & _ & Hthrow & _).
  - vm_compute. discriminate.
  - reflexivity.
  - reflexivity.
  - split; [exact Hdata|]. apply Hthrow. reflexivity.
Defined.

Lemma one_challenge_per_user_witness :
  fst (generateChallenge "did:privy:alice" "0xCD34" (Sample.t0 + 1000) Sample.members)
  = Data (mkSigningChallenge 1 "0xCD34" (challengeMessage (Sample.t0 + 1000) "0xCD34")
            (Sample.t0 + 1000))
  /\ List.length (signingChallenges
        (snd (generateChallenge "did:privy:alice" "0xCD34" (Sample.t0 + 1000)
                Sample.members))) = 1%nat.
Proof.
  assert (Hreach : reachable Sample.getUser Sample.verifyMessage Sample.quietProfiles
                     Sample.quietRecommendations Sample.members).
  { change Sample.members
      with (snd (generateChallenge "did:privy:alice" "0xAB12" Sample.t0 Sample.joined)).
    apply reach_generateChallenge. apply reach_seed. reflexivity. }
  destruct (one_challenge_per_user Sample.getUser Sample.verifyMessage
              Sample.quietProfiles Sample.quietRecommendations
              (fun _ _ _ => eq_refl) (fun _ _ => eq_refl) Sample.members Hreach)
    as (_ & Hissue & _).
  destruct (Hissue "did:privy:alice"%string "0xCD34"%string (Sample.t0 + 1000)
              Sample.aliceRow Sample.pending eq_refl eq_refl)
    as (_ & Hdata & _ & Hlen & _).
  split; [exact Hdata | exact Hlen].
Defined.

(** * Further properties of the service functions *)

(** ** Letter case *)

Lemma lowerChar_idempotent (c : ascii) :
  JsString.lowerChar (JsString.lowerChar c) = JsString.lowerChar c.
Proof.
  destruct c as [[] [] [] [] [] [] [] []]; reflexivity.
Qed.

Lemma toLowerCase_idempotent (s : string) :
  JsString.toLowerCase (JsString.toLowerCase s) = JsString.toLowerCase s.
Proof.
  induction s as [|c s IH]; simpl; [reflexivity|].
  now rewrite lowerChar_idempotent, IH.
Qed.

(** ** Registration, continued *)

Section RegistrationMore.

Variable privyClient_getUser : string -> option PrivyUser.

(** X1 -- Once [createUser] has registered an identity that the provider
    reports under its own id, every further [createUser] for that identity
    answers [USER_ALREADY_EXISTS] and writes nothing, whatever invite code
    it brings. *)
Theorem createUser_only_once (privyUserId inviteCode inviteCode' : string) (s s1 : Store)
    (newUser : User) :
  (forall privyUser, privyClient_getUser privyUserId = Some privyUser ->
                     privy_id privyUser = privyUserId) ->
  createUser privyClient_getUser privyUserId inviteCode s = (Data newUser, s1) ->
  createUser privyClient_getUser privyUserId inviteCode' s1
  = (Error USER_ALREADY_EXISTS, s1).
Proof.
  intros Hid Hfirst.
  destruct (createUser_cases privyClient_getUser privyUserId inviteCode s)
    as [[e He]|[[e He]|(pu & w & c & Hpu & Hu & Hw & Hc & Hact & Hcap & He)]];
    rewrite He in Hfirst; try discriminate.
  injection Hfirst as Hnew Hstore.
  assert (Hfound : prisma.user.findUnique privyUserId s1 = Some newUser).
  { rewrite <- Hstore, <- Hnew. unfold prisma.user.findUnique in *. simpl.
    rewrite find_app_miss by exact Hu. simpl.
    rewrite (Hid pu Hpu). now rewrite String.eqb_refl. }
  unfold createUser. now rewrite Hpu, Hfound.
Qed.

End RegistrationMore.

(** ** Challenges, continued *)

(** What [generateChallenge] does for a registered caller. *)
Lemma generateChallenge_issued (privyUserId publicKey : string) (now : Z) (s : Store)
    (user : User) :
  prisma.user.findUnique privyUserId s = Some user ->
  let issued := mkSigningChallenge (user_id user) publicKey
                  (challengeMessage now publicKey) now in
  let out := generateChallenge privyUserId publicKey now s in
  fst out = Data issued
  /\ prisma.signingChallenge.findFirst (user_id user) (snd out) = Some issued
  /\ users (snd out) = users s
  /\ inviteCodes (snd out) = inviteCodes s.
Proof.
  intros Hu issued out. subst issued out.
  unfold generateChallenge, prisma.signingChallenge.upsert. rewrite Hu.
  destruct (prisma.signingChallenge.findFirst (user_id user) s) as [old|] eqn:Hold; simpl.
  - pose proof Hold as Hin. unfold prisma.signingChallenge.findFirst in Hin.
    apply find_some in Hin as [_ Hid]. apply Z.eqb_eq in Hid.
    unfold prisma.signingChallenge.overwrite. rewrite Hid. repeat split; trivial.
    unfold prisma.signingChallenge.findFirst in *. simpl.
    rewrite find_map_stable.
    + rewrite Hold. simpl. rewrite Hid, Z.eqb_refl. reflexivity.
    + intros x. destruct (challenge_userId x =? user_id user) eqn:Hx; trivial.
  - repeat split; trivial.
    unfold prisma.signingChallenge.findFirst in *. simpl.
    rewrite find_app_miss by trivial. simpl. now rewrite Z.eqb_refl.
Qed.

(** X6 -- [generateChallenge] rejects an unknown identity without writing;
    for a registered caller it leaves users and invite codes alone, keeps
    every challenge of another user, and appends exactly one row when the
    caller had no challenge. *)
Theorem generateChallenge_touches_one_row (privyUserId publicKey : string) (now : Z)
    (s : Store) :
  let out := generateChallenge privyUserId publicKey now s in
  (prisma.user.findUnique privyUserId s = None -> out = (Rejects RecordNotFound, s))
  /\ users (snd out) = users s
  /\ inviteCodes (snd out) = inviteCodes s
  /\ (forall caller, prisma.user.findUnique privyUserId s = Some caller ->
        (forall c, In c (signingChallenges s) -> challenge_userId c <> user_id caller ->
                   In c (signingChallenges (snd out)))
        /\ (prisma.signingChallenge.findFirst (user_id caller) s = None ->
            signingChallenges (snd out)
            = signingChallenges s
              ++ [mkSigningChallenge (user_id caller) publicKey
                    (challengeMessage now publicKey) now])).
Proof.
  intros out. subst out. unfold generateChallenge, prisma.signingChallenge.upsert.
  destruct (prisma.user.findUnique privyUserId s) as [caller|] eqn:Hu.
  2:{ simpl. repeat split; trivial. intros; discriminate. }
  split; [discriminate|].
  destruct (prisma.signingChallenge.findFirst (user_id caller) s) as [old|] eqn:Hold;
    simpl; (split; [reflexivity|]); (split; [reflexivity|]);
    intros caller' Heq; injection Heq as <-; rewrite Hold; split.
  - intros c Hin Hother. apply in_map_iff. exists c. split; trivial.
    apply Z.eqb_neq in Hother. now rewrite Hother.
  - discriminate.
  - intros c Hin _. apply in_or_app. now left.
  - reflexivity.
Qed.

(** *** The message to sign *)

Lemma digits_noLineFeed (d : Decimal.uint) : noLineFeed (NilEmpty.string_of_uint d).
Proof.
  induction d; simpl; intros c Hin; try contradiction;
    destruct Hin as [<-|Hin]; try discriminate; now apply IHd.
Qed.

Lemma ofNumber_noLineFeed (z : Z) : noLineFeed (JsString.ofNumber z).
Proof.
  assert (Hu : forall d, noLineFeed (NilZero.string_of_uint d)).
  { intros d. destruct d; try apply digits_noLineFeed.
    intros c [<-|[]]. discriminate. }
  unfold JsString.ofNumber, NilZero.string_of_int.
  destruct (Z.to_int z) as [d|d].
  - apply Hu.
  - intros c [<-|Hin]; [discriminate | exact (Hu d c Hin)].
Qed.

Lemma ofNumber_injective (z z' : Z) :
  JsString.ofNumber z = JsString.ofNumber z' -> z = z'.
Proof.
  unfold JsString.ofNumber. intros Heq.
  apply DecimalZ.to_int_inj.
  assert (Hparse : forall n, NilZero.int_of_string (NilZero.string_of_int (Z.to_int n))
                             = Some (Z.to_int n)).
  { intros n. apply NilZero.isi; destruct n as [|p|p]; simpl; try discriminate;
      intros [= Hnil]; exact (DecimalPos.Unsigned.to_uint_nonnil p Hnil). }
  pose proof (Hparse z) as Hz. rewrite Heq, Hparse in Hz. now injection Hz.
Qed.

(** Two texts that agree after a digit string and a line feed agree on the
    digits and on what follows. *)
Lemma split_at_lineFeed (a a' r r' : string) :
  noLineFeed a -> noLineFeed a' ->
  (a ++ String "010" r)%string = (a' ++ String "010" r')%string ->
  a = a' /\ r = r'.
Proof.
  revert a'. induction a as [|c a IH]; intros [|c' a'] Ha Ha'; simpl; intros Heq.
  - injection Heq as ->. now split.
  - injection Heq as Hc _. exfalso. apply (Ha' c'); [now left | now symmetry].
  - injection Heq as Hc _. exfalso. apply (Ha c); [now left | trivial].
  - injection Heq as -> Hrest.
    destruct (IH a') as [-> ->]; trivial.
    + intros x Hx. apply Ha. now right.
    + intros x Hx. apply Ha'. now right.
    + now split.
Qed.

Lemma append_cancel_l (p a b : string) :
  (p ++ a)%string = (p ++ b)%string -> a = b.
Proof.
  induction p as [|c p IH]; simpl; [trivial|]. intros Heq. injection Heq as Heq. auto.
Qed.

Lemma length_append (a b : string) :
  String.length (a ++ b) = (String.length a + String.length b)%nat.
Proof.
  induction a as [|c a IH]; simpl; [reflexivity | now rewrite IH].
Qed.

Lemma append_cancel_r (a b t : string) :
  (a ++ t)%string = (b ++ t)%string -> a = b.
Proof.
  revert b. induction a as [|c a IH]; intros [|c' b] Heq; simpl in *; trivial.
  - exfalso. apply (f_equal String.length) in Heq. simpl in Heq.
    rewrite length_append in Heq. lia.
  - exfalso. apply (f_equal String.length) in Heq. simpl in Heq.
    rewrite length_append in Heq. lia.
  - injection Heq as -> Heq. f_equal. now apply IH.
Qed.

(** X5 -- The message of a challenge determines the clock reading and the
    candidate address it was built from: two issuances that differ in
    either never share a message. *)
Theorem challengeMessage_injective (now now' : Z) (publicKey publicKey' : string) :
  challengeMessage now publicKey = challengeMessage now' publicKey' ->
  now = now' /\ publicKey = publicKey'.
Proof.
  unfold challengeMessage, LF. intros Heq.
  apply append_cancel_l in Heq. apply append_cancel_l in Heq.
  apply append_cancel_l in Heq. apply append_cancel_l in Heq.
  simpl in Heq.
  apply split_at_lineFeed in Heq as [Hnum Hrest]; try apply ofNumber_noLineFeed.
  split; [now apply ofNumber_injective|].
  injection Hrest as Hrest. now apply append_cancel_r in Hrest.
Qed.

(** ** Wallet linking, continued *)

Lemma lowerCased_users (s s' : Store) :
  users s' = users s -> lowerCased s -> lowerCased s'.
Proof.
  unfold lowerCased. intros Heq Hs u Hin. rewrite Heq in Hin. auto.
Qed.

Lemma linked_lowerCased (existingUser : User) (challenge : SigningChallenge) (s : Store) :
  lowerCased s -> lowerCased (linked existingUser challenge s).
Proof.
  unfold lowerCased, linked. simpl. intros Hs u Hin.
  apply in_map_iff in Hin as (r & <- & Hr).
  destruct (Hs r Hr) as [Hw Hsw].
  destruct (user_id r =? user_id existingUser); [|auto].
  simpl. split; trivial.
  intros w Heq. injection Heq as <-. apply toLowerCase_idempotent.
Qed.

Section LinkingMore.

Variable privyClient_getUser : string -> option PrivyUser.
Variable verifyMessage : string -> string -> string -> bool.
Variable updateUserSocialProfiles : Z -> string -> Store -> Completion * Store.
Variable updateRecommendations : string -> Store -> Completion * Store.

Local Abbreviation link :=
  (linkNewWallet verifyMessage updateUserSocialProfiles updateRecommendations).
Local Abbreviation refresh :=
  (refreshAfterLink updateUserSocialProfiles updateRecommendations).

(** A property of stores that both side effects keep is kept by the block
    that runs them. *)
Lemma refreshAfterLink_keeps (P : Store -> Prop) (user : User)
    (challenge : SigningChallenge) (s : Store) :
  (forall id w st, P st -> P (snd (updateUserSocialProfiles id w st))) ->
  (forall w st, P st -> P (snd (updateRecommendations w st))) ->
  P s -> P (refresh user challenge s).
Proof.
  intros Hprofiles Hrecs Hs. unfold refreshAfterLink.
  pose proof (Hprofiles (user_id user)
                (JsString.toLowerCase (challenge_publicKey challenge)) s Hs) as H1.
  destruct (updateUserSocialProfiles _ _ s) as [[|] s1]; simpl in H1; auto.
Qed.

(** X2 -- Stored wallets stay in lower case: if every wallet and social
    wallet in the store is lower-case and the two side effects keep it so,
    then it still is after any call of [createUser], [generateChallenge] or
    [linkNewWallet]. *)
Theorem wallets_stay_lower_case (s : Store) :
  (forall id w st, lowerCased st -> lowerCased (snd (updateUserSocialProfiles id w st))) ->
  (forall w st, lowerCased st -> lowerCased (snd (updateRecommendations w st))) ->
  lowerCased s ->
  (forall privyUserId inviteCode,
     lowerCased (snd (createUser privyClient_getUser privyUserId inviteCode s)))
  /\ (forall privyUserId publicKey now,
        lowerCased (snd (generateChallenge privyUserId publicKey now s)))
  /\ (forall privyUserId signedMessage now,
        lowerCased (snd (link privyUserId signedMessage now s))).
Proof.
  intros Hprofiles Hrecs Hs. split; [|split].
  - intros pid code.
    destruct (createUser_cases privyClient_getUser pid code s)
      as [[e He]|[[e He]|(pu & w & c & _ & _ & _ & _ & _ & _ & He)]];
      rewrite He; simpl; trivial.
    intros u Hin. apply in_app_or in Hin as [Hin|[<-|[]]]; [now apply Hs|].
    simpl. split; [apply toLowerCase_idempotent | discriminate].
  - intros pid pk now.
    destruct (prisma.user.findUnique pid s) as [caller|] eqn:Hu.
    + destruct (generateChallenge_issued pid pk now s caller Hu) as (_ & _ & Husers & _).
      exact (lowerCased_users _ _ Husers Hs).
    + unfold generateChallenge. now rewrite Hu.
  - intros pid sig now.
    destruct (prisma.user.findUnique pid s) as [eu|] eqn:Hu.
    2:{ unfold linkNewWallet. now rewrite Hu. }
    destruct (prisma.signingChallenge.findFirst (user_id eu) s) as [ch|] eqn:Hch.
    2:{ unfold linkNewWallet. now rewrite Hu, Hch. }
    destruct (linkNewWallet_run verifyMessage updateUserSocialProfiles
                updateRecommendations pid sig now s _ _ Hu Hch) as (u' & _ & ->).
    simpl. destruct (15 <? _); trivial.
    destruct (negb _); trivial.
    destruct (prisma.user.socialWalletConflict _ _ s); trivial.
    simpl. apply refreshAfterLink_keeps; trivial. now apply linked_lowerCased.
Qed.

(** X3 -- A linked wallet is found again: when [linkNewWallet] returns a
    user and the side effects leave the user table alone, [checkUsersExist]
    on the resulting store returns that user for every list holding an
    address whose lower-cased form is the linked one, whatever its letter
    case. *)
Theorem linked_wallet_is_found (privyUserId signedMessage : string) (now : Z) (s : Store)
    (user : User) (wallets : list string) (a : string) :
  (forall id w st, users (snd (updateUserSocialProfiles id w st)) = users st) ->
  (forall w st, users (snd (updateRecommendations w st)) = users st) ->
  fst (link privyUserId signedMessage now s) = Data user ->
  In a wallets ->
  user_socialWallet user = Some (JsString.toLowerCase a) ->
  exists res,
    checkUsersExist wallets (snd (link privyUserId signedMessage now s))
    = (Data res, snd (link privyUserId signedMessage now s))
    /\ In user res.
Proof.
  intros Hprofiles Hrecs Hdata Hin Hsw.
  eexists. split; [reflexivity|].
  unfold prisma.user.findMany_socialWallet_in. apply filter_In. split.
  - destruct (prisma.user.findUnique privyUserId s) as [eu|] eqn:Hu.
    2:{ unfold linkNewWallet in Hdata. rewrite Hu in Hdata. discriminate. }
    destruct (prisma.signingChallenge.findFirst (user_id eu) s) as [ch|] eqn:Hch.
    2:{ unfold linkNewWallet in Hdata. rewrite Hu, Hch in Hdata. discriminate. }
    destruct (linkNewWallet_run verifyMessage updateUserSocialProfiles
                updateRecommendations privyUserId signedMessage now s _ _ Hu Hch)
      as (u' & Hid & Hrun).
    rewrite Hrun in *. simpl in *.
    destruct (15 <? _); [discriminate|].
    destruct (negb _); [discriminate|].
    destruct (prisma.user.socialWalletConflict _ _ s); [discriminate|].
    simpl in *. injection Hdata as <-.
    apply (refreshAfterLink_keeps
             (fun st => In (prisma.user.setSocialWallet
                              (JsString.toLowerCase (challenge_publicKey ch)) u')
                           (users st))).
    + intros id w st Hst. now rewrite Hprofiles.
    + intros w st Hst. now rewrite Hrecs.
    + pose proof (linked_user_row eu u' ch s Hid) as Hrow.
      apply find_some in Hrow as [Hrow _]. exact Hrow.
  - apply existsb_exists. exists (JsString.toLowerCase a). split.
    + now apply in_map.
    + now apply optEqb_spec.
Qed.

(** X4 -- Issue, then verify: after [generateChallenge] for a registered
    caller, a [linkNewWallet] less than sixteen minutes later, with a
    signature the verifier accepts for the issued message at the candidate
    address as it was supplied, links the lower-cased address, provided no
    other user holds it. *)
Theorem issued_challenge_verifies (privyUserId publicKey signedMessage : string)
    (issuedAt now : Z) (s : Store) (caller : User) :
  prisma.user.findUnique privyUserId s = Some caller ->
  verifyMessage publicKey (challengeMessage issuedAt publicKey) signedMessage = true ->
  Z.abs (now - issuedAt) < 16 * 60000 ->
  (forall u, In u (users s) -> user_id u <> user_id caller ->
             user_socialWallet u <> Some (JsString.toLowerCase publicKey)) ->
  exists user,
    fst (link privyUserId signedMessage now
           (snd (generateChallenge privyUserId publicKey issuedAt s))) = Data user
    /\ user_id user = user_id caller
    /\ user_socialWallet user = Some (JsString.toLowerCase publicKey).
Proof.
  intros Hu Hsig Hwindow Hfree.
  destruct (generateChallenge_issued privyUserId publicKey issuedAt s caller Hu)
    as (_ & Hch & Husers & _).
  set (s1 := snd (generateChallenge privyUserId publicKey issuedAt s)) in *.
  assert (Hu1 : prisma.user.findUnique privyUserId s1 = Some caller).
  { unfold prisma.user.findUnique in *. now rewrite Husers. }
  destruct (linkNewWallet_run verifyMessage updateUserSocialProfiles
              updateRecommendations privyUserId signedMessage now s1 _ _ Hu1 Hch)
    as (u' & Hid & ->).
  simpl.
  destruct (15 <? Z.abs (differenceInMinutes now issuedAt)) eqn:Hexp.
  { apply expired_iff in Hexp. lia. }
  rewrite Hsig. simpl.
  assert (Hok : prisma.user.socialWalletConflict (user_id caller)
                  (JsString.toLowerCase publicKey) s1 = false).
  { apply socialWalletConflict_false. rewrite Husers. exact Hfree. }
  rewrite Hok. simpl. eexists. split; [reflexivity|]. split; [|reflexivity].
  simpl. apply find_some in Hid as [_ Hid]. now apply Z.eqb_eq.
Qed.

(** X7 -- A challenge is spent by its use: after [linkNewWallet] has
    returned a user, and with side effects that leave users and challenges
    alone, any further [linkNewWallet] by the same caller is rejected with
    a missing record and writes nothing, until a new challenge is issued. *)
Theorem challenge_is_single_use (privyUserId signedMessage signedMessage' : string)
    (now now' : Z) (s s1 : Store) (user : User) :
  (forall id w st, users (snd (updateUserSocialProfiles id w st)) = users st) ->
  (forall w st, users (snd (updateRecommendations w st)) = users st) ->
  (forall id w st,
     signingChallenges (snd (updateUserSocialProfiles id w st)) = signingChallenges st) ->
  (forall w st,
     signingChallenges (snd (updateRecommendations w st)) = signingChallenges st) ->
  link privyUserId signedMessage now s = (Data user, s1) ->
  link privyUserId signedMessage' now' s1 = (Rejects RecordNotFound, s1).
Proof.
  intros Hpu Hru Hpc Hrc Hfirst.
  destruct (prisma.user.findUnique privyUserId s) as [eu|] eqn:Hu.
  2:{ unfold linkNewWallet in Hfirst. rewrite Hu in Hfirst. discriminate. }
  destruct (prisma.signingChallenge.findFirst (user_id eu) s) as [ch|] eqn:Hch.
  2:{ unfold linkNewWallet in Hfirst. rewrite Hu, Hch in Hfirst. discriminate. }
  destruct (linkNewWallet_run verifyMessage updateUserSocialProfiles
              updateRecommendations privyUserId signedMessage now s _ _ Hu Hch)
    as (u' & Hid & Hrun).
  rewrite Hrun in Hfirst. simpl in Hfirst.
  destruct (15 <? _); [discriminate|].
  destruct (negb _); [discriminate|].
  destruct (prisma.user.socialWalletConflict _ _ s); [discriminate|].
  injection Hfirst as Huser Hstore.
  assert (Husers : users s1 = users (linked eu ch s)).
  { rewrite <- Hstore.
    apply (refreshAfterLink_keeps (fun st => users st = users (linked eu ch s)));
      trivial; intros; [rewrite Hpu | rewrite Hru]; trivial. }
  assert (Hchs : signingChallenges s1 = signingChallenges (linked eu ch s)).
  { rewrite <- Hstore.
    apply (refreshAfterLink_keeps
             (fun st => signingChallenges st = signingChallenges (linked eu ch s)));
      trivial; intros; [rewrite Hpc | rewrite Hrc]; trivial. }
  set (w := JsString.toLowerCase (challenge_publicKey ch)) in *.
  assert (Hu1 : prisma.user.findUnique privyUserId s1
                = Some (if user_id eu =? user_id eu
                        then prisma.user.setSocialWallet w eu else eu)).
  { unfold prisma.user.findUnique in *. rewrite Husers. unfold linked. simpl.
    rewrite find_map_stable.
    - now rewrite Hu.
    - intros x. destruct (user_id x =? user_id eu); reflexivity. }
  rewrite Z.eqb_refl in Hu1.
  assert (Hch1 : prisma.signingChallenge.findFirst (user_id eu) s1 = None).
  { unfold prisma.signingChallenge.findFirst. rewrite Hchs.
    apply (linked_challenge_gone eu ch s). }
  unfold linkNewWallet. rewrite Hu1. simpl. now rewrite Hch1.
Qed.

End LinkingMore.

(** ** Profile refresh *)

Section ProfileRefreshFacts.

Variable Profiles : Type.
Variable updateUserSocialProfiles : Z -> string -> Store -> option Profiles * Store.
Variable updateRecommendations : string -> Store -> Completion * Store.

(** X8 -- [refreshCurrentUserProfile] answers [USER_NOT_FOUND] for an
    unknown identity and [NO_SOCIAL_PROFILE_FOUND] for a user whose social
    wallet is null or the empty string, both without writing.  Otherwise
    the enrichment is run on the wallet as stored; if it throws, the call
    throws too and the recommendations are not recomputed; if it returns
    and the recomputation for the lower-cased wallet returns as well, its
    result is the data. *)
Theorem refreshCurrentUserProfile_outcomes (privyUserId : string) (s : Store) :
  let out := refreshCurrentUserProfile Profiles updateUserSocialProfiles
               updateRecommendations privyUserId s in
  (prisma.user.findUnique privyUserId s = None -> out = (Failed USER_NOT_FOUND, s))
  /\ (forall user, prisma.user.findUnique privyUserId s = Some user ->
        (truthy (user_socialWallet user) = false ->
         out = (Failed NO_SOCIAL_PROFILE_FOUND, s))
        /\ (forall w, user_socialWallet user = Some w -> w <> EmptyString ->
              (forall s1, updateUserSocialProfiles (user_id user) w s = (None, s1) ->
                          out = (Thrown, s1))
              /\ (forall res s1 s2,
                    updateUserSocialProfiles (user_id user) w s = (Some res, s1) ->
                    updateRecommendations (JsString.toLowerCase w) s1 = (Returns, s2) ->
                    out = (Resolved res, s2))))
  /\ (forall e, fst out = Failed e -> snd out = s).
Proof.
  intros out. subst out. unfold refreshCurrentUserProfile.
  destruct (prisma.user.findUnique privyUserId s) as [user|] eqn:Hu.
  2:{ simpl. repeat split; trivial; intros; discriminate. }
  split; [discriminate|]. split.
  - intros user' Heq. injection Heq as <-. split.
    + intros Hfalsy. destruct (user_socialWallet user) as [[|c w]|]; trivial; discriminate.
    + intros w Hw Hne. rewrite Hw.
      destruct w as [|c w]; [congruence|]. simpl.
      split; [intros s1 Hthrow | intros res s1 s2 Hret Hrec].
      * now rewrite Hthrow.
      * now rewrite Hret, Hrec.
  - intros e. destruct (user_socialWallet user) as [[|c w]|]; simpl; trivial.
    destruct (updateUserSocialProfiles (user_id user) (String c w) s) as [[res|] s1];
      discriminate.
Qed.

Lemma fold_refreshOne_keeps (P : Store -> Prop) (l : list User) (s : Store) :
  (forall id w st, P st -> P (snd (updateUserSocialProfiles id w st))) ->
  P s -> P (fold_left (refreshOne Profiles updateUserSocialProfiles) l s).
Proof.
  intros Hkeep. revert s. induction l as [|u l IH]; simpl; trivial.
  intros s Hs. apply IH. unfold refreshOne.
  destruct (user_socialWallet u); auto.
Qed.

(** X9 -- [refreshAllUsersProfile] never fails: whatever the enrichment
    does or throws, it returns the users as they were read at the start.
    Every property of the store that each enrichment call keeps holds of
    the store it leaves, and with no user carrying a non-empty social
    wallet the store is not touched at all. *)
Theorem refreshAllUsersProfile_best_effort (s : Store) :
  let out := refreshAllUsersProfile Profiles updateUserSocialProfiles s in
  fst out = Data (users s)
  /\ (forall P : Store -> Prop,
        (forall id w st, P st -> P (snd (updateUserSocialProfiles id w st))) ->
        P s -> P (snd out))
  /\ ((forall u, In u (users s) -> truthy (user_socialWallet u) = false) ->
      snd out = s).
Proof.
  intros out. subst out. unfold refreshAllUsersProfile. simpl.
  split; [reflexivity|]. split.
  - intros P Hkeep Hs. now apply fold_refreshOne_keeps.
  - intros Hnone.
    assert (Hempty : filter (fun user => truthy (user_socialWallet user)) (users s) = []).
    { induction (users s) as [|u l IH]; simpl; trivial.
      rewrite (Hnone u) by now left. apply IH. intros x Hx. apply Hnone. now right. }
    now rewrite Hempty.
Qed.

End ProfileRefreshFacts.

(** ** Display names *)

Lemma test_Fail (s : string) : RegExp.test RegExp.Fail s = false.
Proof. induction s; simpl; trivial. Qed.

Lemma test_Done (s : string) :
  RegExp.test RegExp.Done s = match s with EmptyString => true | _ => false end.
Proof. destruct s; simpl; trivial. apply test_Fail. Qed.

Lemma test_Or (r1 r2 : RegExp.pattern) (s : string) :
  RegExp.test (RegExp.Or r1 r2) s = RegExp.test r1 s || RegExp.test r2 s.
Proof.
  revert r1 r2. induction s as [|c s IH]; intros r1 r2; simpl; trivial.
Qed.

Lemma test_Then_Fail (r : RegExp.pattern) (s : string) :
  RegExp.test (RegExp.Then RegExp.Fail r) s = false.
Proof. induction s; simpl; trivial. Qed.

Lemma test_Then_Done (r : RegExp.pattern) (s : string) :
  RegExp.test (RegExp.Then RegExp.Done r) s = RegExp.test r s.
Proof.
  destruct s as [|c s]; simpl; trivial.
  now rewrite test_Or, test_Then_Fail.
Qed.

(** A bounded repetition of a character class accepts the strings over the
    class whose length lies within the bounds. *)
Lemma test_Repeat (p : ascii -> bool) (s : string) (min extra : nat) :
  RegExp.test (RegExp.Repeat p min extra) s =
    Nat.leb min (String.length s) && Nat.leb (String.length s) (min + extra)
    && forallb p (list_ascii_of_string s).
Proof.
  revert min extra. induction s as [|c s IH]; intros min extra; simpl.
  - destruct min; simpl; trivial.
  - destruct (p c); simpl.
    + destruct min as [|m]; [destruct extra as [|e]|]; simpl.
      * now rewrite test_Fail.
      * now rewrite IH.
      * now rewrite IH.
    + rewrite test_Fail. now rewrite andb_false_r.
Qed.

Lemma displayName_test (s : string) :
  RegExp.test RegExp.displayName s =
    match s with
    | EmptyString => false
    | String c rest =>
        RegExp.letter c
        && (Nat.leb 2 (String.length rest) && Nat.leb (String.length rest) 19
            && forallb RegExp.nameChar (list_ascii_of_string rest))
    end.
Proof.
  destruct s as [|c rest]; simpl; trivial.
  destruct (RegExp.letter c); simpl.
  - now rewrite test_Then_Done, test_Repeat.
  - apply test_Then_Fail.
Qed.

(** X10 -- The display-name pattern of [updateUser] accepts exactly the
    strings of 3 to 20 characters that start with an ASCII letter and go on
    with ASCII letters, digits, underscores and dots. *)
Theorem displayName_pattern_accepts (s : string) :
  RegExp.test RegExp.displayName s = true <->
  exists c rest,
    s = String c rest
    /\ RegExp.letter c = true
    /\ (2 <= String.length rest <= 19)%nat
    /\ (forall x, In x (list_ascii_of_string rest) -> RegExp.nameChar x = true).
Proof.
  rewrite displayName_test. split.
  - destruct s as [|c rest]; [discriminate|]. intros H.
    apply andb_true_iff in H as [Hl H]. apply andb_true_iff in H as [H Hall].
    apply andb_true_iff in H as [Hmin Hmax].
    apply Nat.leb_le in Hmin, Hmax. exists c, rest. repeat split; trivial.
    now apply forallb_forall.
  - intros (c & rest & -> & Hl & [Hmin Hmax] & Hall).
    rewrite Hl. cbn [andb]. apply andb_true_iff. split; [apply andb_true_iff; split|].
    + now apply Nat.leb_le.
    + now apply Nat.leb_le.
    + now apply forallb_forall.
Qed.

(** ** Profile updates *)

Lemma NoDup_map_inj {A K} (key : A -> K) (l : list A) (x y : A) :
  NoDup (map key l) -> In x l -> In y l -> key x = key y -> x = y.
Proof.
  induction l as [|z l IH]; simpl; [contradiction|].
  intros Hnd Hx Hy Hk. inversion Hnd as [|? ? Hnot Hnd']; subst.
  destruct Hx as [->|Hx], Hy as [->|Hy]; trivial.
  - exfalso. apply Hnot. rewrite Hk. now apply in_map.
  - exfalso. apply Hnot. rewrite <- Hk. now apply in_map.
  - now apply IH.
Qed.

(** Every call of [updateUser] ends in one of three ways. *)
Lemma updateUser_cases (privyUserId : string) (updatedUser : UpdateUserArgs)
    (d : Directory) :
  (find (fun a => String.eqb (account_privyUserId a) privyUserId) (accounts d) = None
   /\ updateUser privyUserId updatedUser d = (Rejects RecordNotFound, d))
  \/ (exists e, updateUser privyUserId updatedUser d = (Error e, d))
  \/ (exists existingUser,
        find (fun a => String.eqb (account_privyUserId a) privyUserId) (accounts d)
        = Some existingUser
        /\ (forall name, arg_displayName updatedUser = Some name ->
              account_socialProfiles existingUser = []
              /\ RegExp.test RegExp.displayName name = true)
        /\ (arg_hasFinishedOnboarding updatedUser = Some true ->
              truthy (row_displayName (account_user existingUser)) = true
              \/ truthy (arg_displayName updatedUser) = true)
        /\ updateUser privyUserId updatedUser d
           = (Data (applyUpdate updatedUser (account_user existingUser)),
              mkDirectory
                (map (fun a => if String.eqb (account_privyUserId a) privyUserId
                               then updateAccount updatedUser a else a)
                     (accounts d))
                (recommendedUsers d))).
Proof.
  unfold updateUser.
  destruct (find _ (accounts d)) as [existingUser|] eqn:Hfind; [|left; auto].
  right.
  assert (Hfinish :
    (exists e,
       (if match arg_hasFinishedOnboarding updatedUser with Some true => true | _ => false end
           && negb (truthy (row_displayName (account_user existingUser)))
           && negb (truthy (arg_displayName updatedUser))
        then (Error INVALID_REQUEST, d)
        else (Data (applyUpdate updatedUser (account_user existingUser)),
              mkDirectory
                (map (fun a => if String.eqb (account_privyUserId a) privyUserId
                               then updateAccount updatedUser a else a)
                     (accounts d))
                (recommendedUsers d))) = (Error e, d))
    \/ ((arg_hasFinishedOnboarding updatedUser = Some true ->
           truthy (row_displayName (account_user existingUser)) = true
           \/ truthy (arg_displayName updatedUser) = true)
        /\ (if match arg_hasFinishedOnboarding updatedUser with Some true => true | _ => false end
               && negb (truthy (row_displayName (account_user existingUser)))
               && negb (truthy (arg_displayName updatedUser))
            then (Error INVALID_REQUEST, d)
            else (Data (applyUpdate updatedUser (account_user existingUser)),
                  mkDirectory
                    (map (fun a => if String.eqb (account_privyUserId a) privyUserId
                                   then updateAccount updatedUser a else a)
                         (accounts d))
                    (recommendedUsers d)))
           = (Data (applyUpdate updatedUser (account_user existingUser)),
              mkDirectory
                (map (fun a => if String.eqb (account_privyUserId a) privyUserId
                               then updateAccount updatedUser a else a)
                     (accounts d))
                (recommendedUsers d)))).
  { destruct (arg_hasFinishedOnboarding updatedUser) as [[|]|]; simpl;
      try (right; split; [discriminate | reflexivity]).
    destruct (truthy (row_displayName (account_user existingUser))); simpl;
      [right; split; auto|].
    destruct (truthy (arg_displayName updatedUser)); simpl;
      [right; split; auto | left; eauto]. }
  destruct (arg_displayName updatedUser) as [name|] eqn:Hname.
  - destruct (account_socialProfiles existingUser) as [|p ps] eqn:Hprofiles; simpl;
      [|left; eauto].
    destruct (RegExp.test RegExp.displayName name) eqn:Htest; simpl; [|left; eauto].
    destruct Hfinish as [[e He]|[Hdone He]].
    + left. eauto.
    + right. exists existingUser. split; [reflexivity|]. split; [|split; assumption].
      intros n Hn. injection Hn as <-. now split.
  - destruct Hfinish as [[e He]|[Hdone He]].
    + left. eauto.
    + right. exists existingUser. split; [reflexivity|]. split; [|split; assumption].
      intros n Hn. discriminate.
Qed.

(** X11 -- When [updateUser] succeeds with a display name, the stored name
    is that name, it has 3 to 20 characters, starts with an ASCII letter and
    holds only letters, digits, underscores and dots, and the user had no
    social profile: the display name of a user with social profiles is never
    changed. *)
Theorem updateUser_display_name (privyUserId : string) (updatedUser : UpdateUserArgs)
    (d d1 : Directory) (res : UserRow) (name : string) :
  updateUser privyUserId updatedUser d = (Data res, d1) ->
  arg_displayName updatedUser = Some name ->
  row_displayName res = Some name
  /\ (3 <= String.length name <= 20)%nat
  /\ (exists c rest, name = String c rest /\ RegExp.letter c = true)
  /\ (forall x, In x (list_ascii_of_string name) -> RegExp.nameChar x = true)
  /\ (exists existingUser,
        find (fun a => String.eqb (account_privyUserId a) privyUserId) (accounts d)
        = Some existingUser
        /\ account_socialProfiles existingUser = []
        /\ In (updateAccount updatedUser existingUser) (accounts d1)).
Proof.
  intros Hcall Hname.
  destruct (updateUser_cases privyUserId updatedUser d)
    as [[_ He]|[[e He]|(existing & Hfind & Hchecked & _ & He)]];
    rewrite He in Hcall; try discriminate.
  injection Hcall as <- <-.
  destruct (Hchecked name Hname) as [Hnone Htest].
  rewrite displayName_test in Htest.
  destruct name as [|c rest]; [discriminate|].
  apply andb_true_iff in Htest as [Hl H]. apply andb_true_iff in H as [H Hall].
  apply andb_true_iff in H as [Hmin Hmax]. apply Nat.leb_le in Hmin, Hmax.
  split; [unfold applyUpdate; simpl; now rewrite Hname|].
  split; [simpl; lia|]. split; [eauto|]. split.
  - intros x [<-|Hx].
    + unfold RegExp.nameChar. unfold RegExp.letter in Hl.
      now rewrite Hl.
    + now apply (proj1 (forallb_forall _ _) Hall).
  - exists existing. repeat split; trivial. simpl.
    apply in_map_iff. exists existing.
    pose proof Hfind as Hin. apply find_some in Hin as [Hin Hkey].
    split; trivial. now rewrite Hkey.
Qed.

(** X12 -- Onboarding needs a name: a successful [updateUser] that sets
    [hasFinishedOnboarding] leaves the user flagged and with a non-empty
    display name; and, with unique identity references, if every onboarded
    user had a display name before a call of [updateUser], every onboarded
    user has one after it. *)
Theorem updateUser_keeps_onboarded_named (privyUserId : string)
    (updatedUser : UpdateUserArgs) (d : Directory) :
  let out := updateUser privyUserId updatedUser d in
  (forall res, fst out = Data res ->
     arg_hasFinishedOnboarding updatedUser = Some true ->
     row_hasFinishedOnboarding res = true /\ truthy (row_displayName res) = true)
  /\ (NoDup (map account_privyUserId (accounts d)) ->
      onboardedHaveName d -> onboardedHaveName (snd out)).
Proof.
  intros out. subst out.
  assert (Hnamed : forall existing,
            (forall name, arg_displayName updatedUser = Some name ->
               account_socialProfiles existing = []
               /\ RegExp.test RegExp.displayName name = true) ->
            forall name, arg_displayName updatedUser = Some name ->
                         truthy (Some name) = true).
  { intros existing Hchecked name Hname. destruct (Hchecked name Hname) as [_ Htest].
    rewrite displayName_test in Htest. now destruct name. }
  destruct (updateUser_cases privyUserId updatedUser d)
    as [[_ He]|[[e He]|(existing & Hfind & Hchecked & Hdone & He)]];
    rewrite He; simpl; split; trivial; try discriminate.
  - intros res Hres Hflag. injection Hres as <-.
    unfold applyUpdate. simpl. rewrite Hflag. split; trivial.
    destruct (arg_displayName updatedUser) as [name|] eqn:Hname.
    + exact (Hnamed existing Hchecked name eq_refl).
    + destruct (Hdone Hflag) as [Hold|Hnew]; [trivial | discriminate].
  - intros Hnd Hinv a Hin Hflag.
    apply in_map_iff in Hin as (a0 & <- & Ha0).
    destruct (String.eqb (account_privyUserId a0) privyUserId) eqn:Hkey.
    2:{ now apply Hinv. }
    pose proof Hfind as Hex. apply find_some in Hex as [Hex Hexkey].
    apply String.eqb_eq in Hkey, Hexkey.
    assert (a0 = existing)
      by (apply (NoDup_map_inj account_privyUserId (accounts d)); congruence).
    subst a0. unfold updateAccount, applyUpdate in *. simpl in *.
    destruct (arg_displayName updatedUser) as [name|] eqn:Hname.
    + exact (Hnamed existing Hchecked name eq_refl).
    + destruct (arg_hasFinishedOnboarding updatedUser) as [[|]|] eqn:Hargs.
      * destruct (Hdone eq_refl) as [Hold|Hnew]; [trivial | discriminate].
      * discriminate.
      * now apply Hinv.
Qed.

(** X13 -- [updateUser] writes display name and onboarding flag only: in
    every outcome the core columns of all users (identity, wallets, invite
    reference), all their relations (social profiles, replies, invite codes,
    points) and the recommendations are as before, the users of other
    identities are untouched, and a call that returns no data leaves the
    whole directory as it was. *)
Theorem updateUser_frame (privyUserId : string) (updatedUser : UpdateUserArgs)
    (d : Directory) :
  let out := updateUser privyUserId updatedUser d in
  map (fun a => row_core (account_user a)) (accounts (snd out))
  = map (fun a => row_core (account_user a)) (accounts d)
  /\ map account_socialProfiles (accounts (snd out)) = map account_socialProfiles (accounts d)
  /\ map account_replies (accounts (snd out)) = map account_replies (accounts d)
  /\ recommendedUsers (snd out) = recommendedUsers d
  /\ (forall a, In a (accounts d) -> account_privyUserId a <> privyUserId ->
                In a (accounts (snd out)))
  /\ (isData (fst out) = false -> snd out = d)
  /\ map account_inviteCodes (accounts (snd out)) = map account_inviteCodes (accounts d)
  /\ map account_points (accounts (snd out)) = map account_points (accounts d)
  /\ (forall a', In a' (accounts (snd out)) ->
        exists a, In a (accounts d)
          /\ row_core (account_user a') = row_core (account_user a)
          /\ account_socialProfiles a' = account_socialProfiles a
          /\ account_replies a' = account_replies a
          /\ account_inviteCodes a' = account_inviteCodes a
          /\ account_points a' = account_points a
          /\ (account_privyUserId a <> privyUserId -> a' = a)).
Proof.
  intros out. subst out.
  assert (Hrows : forall a' : Account, In a' (accounts d) ->
            exists a, In a (accounts d)
              /\ row_core (account_user a') = row_core (account_user a)
              /\ account_socialProfiles a' = account_socialProfiles a
              /\ account_replies a' = account_replies a
              /\ account_inviteCodes a' = account_inviteCodes a
              /\ account_points a' = account_points a
              /\ (account_privyUserId a <> privyUserId -> a' = a)).
  { intros a' Hin. exists a'. repeat split; trivial. }
  destruct (updateUser_cases privyUserId updatedUser d)
    as [[_ He]|[[e He]|(existing & _ & _ & _ & He)]];
    rewrite He; simpl;
    (split; [|split; [|split; [|split; [|split; [|split; [|split; [|split]]]]]]]);
    trivial; try discriminate.
  - rewrite map_map. apply map_ext. intros a.
    now destruct (String.eqb (account_privyUserId a) privyUserId).
  - rewrite map_map. apply map_ext. intros a.
    now destruct (String.eqb (account_privyUserId a) privyUserId).
  - rewrite map_map. apply map_ext. intros a.
    now destruct (String.eqb (account_privyUserId a) privyUserId).
  - intros a Hin Hother. apply in_map_iff. exists a. split; trivial.
    apply String.eqb_neq in Hother. now rewrite Hother.
  - rewrite map_map. apply map_ext. intros a.
    now destruct (String.eqb (account_privyUserId a) privyUserId).
  - rewrite map_map. apply map_ext. intros a.
    now destruct (String.eqb (account_privyUserId a) privyUserId).
  - intros a' Hin. apply in_map_iff in Hin as (a & <- & Ha).
    exists a. split; [exact Ha|].
    destruct (String.eqb (account_privyUserId a) privyUserId) eqn:Hkey.
    + repeat split; trivial. intros Hother. apply String.eqb_eq in Hkey. contradiction.
    + repeat split; trivial.
Qed.

(** ** Profile queries *)

Lemma countAnswered_le (replies : list Reply) :
  (countAnswered replies <= List.length replies)%nat.
Proof. unfold countAnswered. apply filter_length_le. Qed.


(** X15 -- [getUser] compares the lower-cased argument with the stored
    wallets: two spellings of an address that differ in letter case give the
    same answer, a returned user carries the lower-cased argument as wallet
    (so a stored wallet with an upper-case letter is never returned), and
    the answer is [USER_NOT_FOUND] exactly when no stored wallet equals the
    lower-cased argument. *)
Theorem getUser_by_lower_case (wallet : string) (d : Directory) :
  (forall wallet', JsString.toLowerCase wallet' = JsString.toLowerCase wallet ->
                   getUser wallet' d = getUser wallet d)
  /\ (forall row profiles, getUser wallet d = Data (row, profiles) ->
        user_wallet (row_core row) = JsString.toLowerCase wallet
        /\ JsString.toLowerCase (user_wallet (row_core row)) = user_wallet (row_core row)
        /\ exists a, In a (accounts d) /\ account_user a = row
                     /\ account_socialProfiles a = profiles)
  /\ (getUser wallet d = Error USER_NOT_FOUND <->
      forall a, In a (accounts d) -> account_wallet a <> JsString.toLowerCase wallet).
Proof.
  split; [|split].
  - intros wallet' Heq. unfold getUser. now rewrite Heq.
  - intros row profiles. unfold getUser.
    destruct (find _ (accounts d)) as [a|] eqn:Hfind; [|discriminate].
    intros Heq. injection Heq as <- <-.
    apply find_some in Hfind as [Hin Hw]. apply String.eqb_eq in Hw.
    unfold account_wallet in Hw. rewrite Hw. split; trivial.
    split; [apply toLowerCase_idempotent|]. eauto.
  - unfold getUser.
    destruct (find _ (accounts d)) as [a|] eqn:Hfind; split; trivial.
    + discriminate.
    + intros Hnone. apply find_some in Hfind as [Hin Hw]. apply String.eqb_eq in Hw.
      exfalso. exact (Hnone a Hin Hw).
    + intros _ a Hin Hw. apply (find_none _ _ Hfind) in Hin.
      simpl in Hin. rewrite Hw, String.eqb_refl in Hin. discriminate.
Qed.

(** X16 -- [getCurrentUser] never answers with an error: an unknown
    identity gives [data: null].  For a known identity the invite codes
    returned are exactly the user's active ones. *)
Theorem getCurrentUser_active_codes (privyUserId : string) (d : Directory) :
  exists res,
    getCurrentUser privyUserId d = Data res
    /\ (res = None <->
        forall a, In a (accounts d) -> account_privyUserId a <> privyUserId)
    /\ (forall current, res = Some current ->
          exists a, In a (accounts d)
            /\ account_privyUserId a = privyUserId
            /\ current_user current = account_user a
            /\ (forall c, In c (current_inviteCodes current) <->
                          In c (account_inviteCodes a) /\ code_isActive c = true)).
Proof.
  eexists. split; [reflexivity|].
  destruct (find (fun a => String.eqb (account_privyUserId a) privyUserId) (accounts d))
    as [a|] eqn:Hfind; simpl; split.
  - split; [discriminate|]. intros Hnone.
    apply find_some in Hfind as [Hin Hkey]. apply String.eqb_eq in Hkey.
    exfalso. exact (Hnone a Hin Hkey).
  - intros current Heq. injection Heq as <-.
    apply find_some in Hfind as [Hin Hkey]. apply String.eqb_eq in Hkey.
    exists a. simpl. split; [trivial|]. split; [trivial|]. split; [trivial|].
    intros c. apply filter_In.
  - split; trivial. intros _ a Hin Hkey. apply (find_none _ _ Hfind) in Hin.
    simpl in Hin. rewrite Hkey, String.eqb_refl in Hin. discriminate.
  - discriminate.
Qed.

(** *** Recommendations *)

Lemma insertByScore_perm (r : RecommendedUser) (l : list RecommendedUser) :
  Permutation (r :: l) (insertByScore r l).
Proof.
  induction l as [|x l IH]; simpl; [apply Permutation_refl|].
  destruct (rec_recommendationScore x <=? rec_recommendationScore r).
  - apply Permutation_refl.
  - eapply Permutation_trans; [apply perm_swap|]. now apply perm_skip.
Qed.

Lemma orderByScoreDesc_perm (l : list RecommendedUser) :
  Permutation l (orderByScoreDesc l).
Proof.
  induction l as [|x l IH]; simpl; [constructor|].
  eapply Permutation_trans; [apply perm_skip; exact IH|]. apply insertByScore_perm.
Qed.

Lemma insertByScore_descending (r : RecommendedUser) (l : list RecommendedUser) :
  descending l -> descending (insertByScore r l).
Proof.
  unfold descending. induction l as [|x l IH]; simpl; intros Hl.
  - constructor; constructor.
  - inversion Hl as [|? ? Hrest Hall]; subst.
    destruct (rec_recommendationScore x <=? rec_recommendationScore r) eqn:Hcmp.
    + apply Z.leb_le in Hcmp. constructor; trivial.
      constructor; trivial.
      eapply Forall_impl; [|exact Hall]. simpl. intros b Hb. lia.
    + apply Z.leb_gt in Hcmp. constructor; [now apply IH|].
      apply (Permutation_Forall (insertByScore_perm r l)).
      constructor; [lia | trivial].
Qed.

Lemma orderByScoreDesc_descending (l : list RecommendedUser) :
  descending (orderByScoreDesc l).
Proof.
  induction l as [|x l IH]; simpl; [constructor|].
  now apply insertByScore_descending.
Qed.

(** X17 -- [getRecommendedUsers] answers [USER_NOT_FOUND] exactly when no
    stored wallet equals the lower-cased address; otherwise it returns one
    entry for each recommendation made for that user, no more and no fewer,
    in an order in which the score never rises. *)
Theorem getRecommendedUsers_ordered (address : string) (d : Directory) :
  (getRecommendedUsers address d = Error USER_NOT_FOUND <->
   forall a, In a (accounts d) -> account_wallet a <> JsString.toLowerCase address)
  /\ (forall res, getRecommendedUsers address d = Data res ->
        exists user,
          find (fun a => String.eqb (account_wallet a) (JsString.toLowerCase address))
               (accounts d) = Some user
          /\ Permutation
               (filter (fun r => Z.eqb (rec_forId r) (account_id user)) (recommendedUsers d))
               (map recommendation_rec res)
          /\ descending (map recommendation_rec res)).
Proof.
  unfold getRecommendedUsers.
  destruct (find _ (accounts d)) as [user|] eqn:Hfind; split.
  - split; [discriminate|]. intros Hnone.
    apply find_some in Hfind as [Hin Hw]. apply String.eqb_eq in Hw.
    exfalso. exact (Hnone user Hin Hw).
  - intros res Heq. injection Heq as <-. exists user. split; trivial.
    rewrite map_map. simpl. rewrite map_id.
    split; [apply orderByScoreDesc_perm | apply orderByScoreDesc_descending].
  - split; trivial. intros _ a Hin Hw. apply (find_none _ _ Hfind) in Hin.
    simpl in Hin. rewrite Hw, String.eqb_refl in Hin. discriminate.
  - discriminate.
Qed.

Lemma optZEqb_spec (o : option Z) (z : Z) : optZEqb o z = true <-> o = Some z.
Proof.
  destruct o as [v|]; simpl.
  - rewrite Z.eqb_eq. split; congruence.
  - split; discriminate.
Qed.

(** X18 -- Each entry of [getRecommendedUsers] shows the recommendation's
    wallet as social wallet and never more replies than questions.  A
    recommendation that names no stored user gets zero counts and its own
    wallet; with unique user ids, one that names a stored user gets that
    user's counts, and that user's wallet unless it is empty. *)
Theorem getRecommendedUsers_entries (address : string) (d : Directory)
    (res : list Recommendation) (entry : Recommendation) :
  getRecommendedUsers address d = Data res ->
  In entry res ->
  let rec := recommendation_rec entry in
  recommendation_socialWallet entry = rec_wallet rec
  /\ recommendation_userId entry = rec_userId rec
  /\ (recommendation_replies entry <= recommendation_questions entry)%nat
  /\ ((forall a, In a (accounts d) -> rec_userId rec <> Some (account_id a)) ->
      recommendation_questions entry = O
      /\ recommendation_replies entry = O
      /\ recommendation_wallet entry = rec_wallet rec)
  /\ (NoDup (map account_id (accounts d)) ->
      forall a, In a (accounts d) -> rec_userId rec = Some (account_id a) ->
        recommendation_questions entry = List.length (account_replies a)
        /\ recommendation_replies entry = countAnswered (account_replies a)
        /\ (account_wallet a <> EmptyString ->
            recommendation_wallet entry = account_wallet a)).
Proof.
  unfold getRecommendedUsers.
  destruct (find _ (accounts d)) as [user|] eqn:Hfind; [|discriminate].
  intros Heq Hin. injection Heq as <-.
  apply in_map_iff in Hin as (r & <- & Hr).
  set (recommendations := orderByScoreDesc _) in *.
  set (fetched := filter _ (accounts d)).
  unfold describe. simpl.
  destruct (find (fun u => optZEqb (rec_userId r) (account_id u)) fetched)
    as [u|] eqn:Hu.
  - pose proof Hu as Hu'. apply find_some in Hu' as [Hufetched Huid].
    apply optZEqb_spec in Huid.
    apply filter_In in Hufetched as [Huin _].
    split; [reflexivity|]. split; [reflexivity|].
    split; [apply countAnswered_le|]. split.
    + intros Hnone. exfalso. exact (Hnone u Huin Huid).
    + intros Hnd a Ha Hid.
      assert (a = u) by
        (apply (NoDup_map_inj account_id (accounts d)); trivial; congruence).
      subst a. split; [reflexivity|]. split; [reflexivity|].
      intros Hne. destruct (account_wallet u); [congruence | reflexivity].
  - split; [reflexivity|]. split; [reflexivity|].
    split; [apply Nat.le_refl|]. split.
    + intros _. repeat split.
    + intros Hnd a Ha Hid. exfalso.
      assert (Hfetched : In a fetched).
      { apply filter_In. split; trivial. apply existsb_exists. exists r.
        split; trivial. now apply optZEqb_spec. }
      apply (find_none _ _ Hu) in Hfetched. simpl in Hfetched.
      rewrite (proj2 (optZEqb_spec _ _) Hid) in Hfetched. discriminate.
Qed.

(** ** The route of the candidate list *)

Section RouteFacts.

Variable Payload : Type.
Variable JsNumber : Type.
Variable Number : string -> JsNumber.
Variable zero : JsNumber.
Variable getQuestionableUsers : string -> option string -> JsNumber -> option Payload.

Local Abbreviation handle := (GET Payload JsNumber Number zero getQuestionableUsers).

(** X19 -- Without an identity the route answers 400: when the
    [privyUserId] header is missing or empty the response is
    [INVALID_REQUEST] with status 400, whatever the query string holds and
    whatever the service would have done; with a non-empty header the
    status is never 400. *)
Theorem GET_requires_identity (req : NextRequest) :
  (truthy (header_privyUserId req) = false ->
   handle req = mkNextResponse Payload (JsonError Payload INVALID_REQUEST) 400)
  /\ (truthy (header_privyUserId req) = true -> response_status Payload (handle req) <> 400).
Proof.
  unfold GET.
  destruct (header_privyUserId req) as [[|c id]|]; simpl; split; trivial;
    try discriminate.
  intros _. destruct (getQuestionableUsers _ _ _); simpl; discriminate.
Qed.

(** X20 -- With an identity the route calls the service once, with the
    header as identity, the search text unless it is missing or empty, and
    the converted [offset] parameter or zero when there is none.  What the
    service resolves to is sent with status 200; when it throws, the answer
    is [SOMETHING_WENT_WRONG] with status 500. *)
Theorem GET_contains_failures (req : NextRequest) (id : string) :
  header_privyUserId req = Some id ->
  id <> EmptyString ->
  let search :=
    match searchParam_search req with
    | Some EmptyString => None
    | other => other
    end in
  let offset :=
    match searchParam_offset req with
    | Some text => Number text
    | None => zero
    end in
  (forall res, getQuestionableUsers id search offset = Some res ->
               handle req = mkNextResponse Payload (JsonPayload Payload res) 200)
  /\ (getQuestionableUsers id search offset = None ->
      handle req = mkNextResponse Payload (JsonError Payload SOMETHING_WENT_WRONG) 500).
Proof.
  intros Hid Hne search offset. subst search offset. unfold GET. rewrite Hid.
  destruct id as [|c id]; [congruence|]. simpl.
  destruct (searchParam_search req) as [[|c' text]|]; simpl;
    split; intros; match goal with H : getQuestionableUsers _ _ _ = _ |- _ =>
                                     now rewrite H end.
Qed.

End RouteFacts.

(** ** The further properties on sample data *)

Example updateUser_rename :
  fst (updateUser "did:privy:alice" SampleDirectory.rename SampleDirectory.directory)
  = Data (mkUserRow Sample.aliceRow (Some "alice_01"%string) true).
Proof. reflexivity. Qed.

Example updateUser_rejections :
  fst (updateUser "did:privy:carol" (mkUpdateUserArgs None (Some "carol"%string))
         SampleDirectory.directory) = Error INVALID_REQUEST
  /\ fst (updateUser "did:privy:alice" (mkUpdateUserArgs None (Some "al"%string))
            SampleDirectory.directory) = Error USERNAME_INVALID_FORMAT
  /\ fst (updateUser "did:privy:alice" (mkUpdateUserArgs None (Some "1alice"%string))
            SampleDirectory.directory) = Error USERNAME_INVALID_FORMAT
  /\ fst (updateUser "did:privy:alice" (mkUpdateUserArgs (Some true) None)
            SampleDirectory.directory) = Error INVALID_REQUEST
  /\ fst (updateUser "did:privy:nobody" (mkUpdateUserArgs None None)
            SampleDirectory.directory) = Rejects RecordNotFound.
Proof. repeat split. Qed.

Example getBulkUsers_sample :
  getBulkUsers ["0xabcdef"; "0xca401"]%string SampleDirectory.directory
  = Data [mkBulkUser (mkUserRow Sample.carolRow (Some "carol.eth"%string) true) 1 0]
  /\ getBulkUsers ["0xCA401"]%string SampleDirectory.directory = Data [].
Proof. split; reflexivity. Qed.

Example getRecommendedUsers_sample :
  getRecommendedUsers "0xABCDEF" SampleDirectory.directory
  = Data [ mkRecommendation (mkRecommendedUser 2 1 None "0xfeed" 30)
             "0xfeed" "0xfeed" None 0 0;
           mkRecommendation (mkRecommendedUser 4 1 (Some 7) "0xbeef" 20)
             "0xbeef" "0xbeef" (Some 7) 0 0;
           mkRecommendation (mkRecommendedUser 1 1 (Some 2) "0xca401" 10)
             "0xca401" "0xca401" (Some 2) 1 0 ].
Proof. reflexivity. Qed.

Lemma createUser_only_once_witness :
  createUser Sample.getUser "did:privy:alice" "ANOTHER"
    (snd (createUser Sample.getUser "did:privy:alice" "ABC123" Sample.seeded))
  = (Error USER_ALREADY_EXISTS,
     snd (createUser Sample.getUser "did:privy:alice" "ABC123" Sample.seeded)).
Proof.
  apply (createUser_only_once Sample.getUser "did:privy:alice" "ABC123" "ANOTHER"
           Sample.seeded _ (mkUser 1 "did:privy:alice" "0xabcdef" None (Some 7) true)).
  - intros pu Hpu. vm_compute in Hpu. now injection Hpu as <-.
  - reflexivity.
Defined.

Lemma members_lowerCased : lowerCased Sample.members.
Proof.
  intros u [<-|[<-|[]]]; split; try reflexivity; intros w Hw; discriminate.
Qed.

Lemma wallets_stay_lower_case_witness :
  lowerCased
    (snd (linkNewWallet Sample.verifyMessage Sample.quietProfiles
            Sample.quietRecommendations
            "did:privy:alice" Sample.goodSignature (Sample.t0 + 60000) Sample.members)).
Proof.
  destruct (wallets_stay_lower_case Sample.getUser Sample.verifyMessage
              Sample.quietProfiles Sample.quietRecommendations Sample.members
              (fun _ _ _ H => H) (fun _ _ H => H) members_lowerCased)
    as (_ & _ & Hlink).
  apply Hlink.
Defined.

Lemma linked_wallet_is_found_witness :
  exists res,
    checkUsersExist ["0XAB12"]%string
      (snd (linkNewWallet Sample.verifyMessage Sample.quietProfiles
              Sample.quietRecommendations
              "did:privy:alice" Sample.goodSignature (Sample.t0 + 60000) Sample.members))
    = (Data res,
       snd (linkNewWallet Sample.verifyMessage Sample.quietProfiles
              Sample.quietRecommendations
              "did:privy:alice" Sample.goodSignature (Sample.t0 + 60000) Sample.members))
    /\ In (prisma.user.setSocialWallet "0xab12" Sample.aliceRow) res.
Proof.
  apply (linked_wallet_is_found Sample.verifyMessage Sample.quietProfiles
           Sample.quietRecommendations "did:privy:alice" Sample.goodSignature
           (Sample.t0 + 60000) Sample.members
           (prisma.user.setSocialWallet "0xab12" Sample.aliceRow)
           ["0XAB12"]%string "0XAB12"
           (fun _ _ _ => eq_refl) (fun _ _ => eq_refl) eq_refl).
  - now left.
  - reflexivity.
Defined.

Lemma issued_challenge_verifies_witness :
  exists user,
    fst (linkNewWallet Sample.verifyMessage Sample.quietProfiles
           Sample.quietRecommendations
           "did:privy:alice" Sample.goodSignature (Sample.t0 + 60000)
           (snd (generateChallenge "did:privy:alice" "0xAB12" Sample.t0 Sample.joined)))
    = Data user
    /\ user_id user = 1
    /\ user_socialWallet user = Some "0xab12"%string.
Proof.
  apply (issued_challenge_verifies Sample.verifyMessage Sample.quietProfiles
           Sample.quietRecommendations "did:privy:alice" "0xAB12" Sample.goodSignature
           Sample.t0 (Sample.t0 + 60000) Sample.joined Sample.aliceRow eq_refl eq_refl).
  - vm_compute. reflexivity.
  - intros u [<-|[<-|[]]] _; discriminate.
Defined.

Lemma challenge_is_single_use_witness :
  linkNewWallet Sample.verifyMessage Sample.quietProfiles Sample.quietRecommendations
    "did:privy:alice" Sample.goodSignature (Sample.t0 + 120000)
    (linked Sample.aliceRow Sample.pending Sample.members)
  = (Rejects RecordNotFound, linked Sample.aliceRow Sample.pending Sample.members).
Proof.
  apply (challenge_is_single_use Sample.verifyMessage Sample.quietProfiles
           Sample.quietRecommendations "did:privy:alice" Sample.goodSignature
           Sample.goodSignature (Sample.t0 + 60000) (Sample.t0 + 120000) Sample.members
           (linked Sample.aliceRow Sample.pending Sample.members)
           (prisma.user.setSocialWallet "0xab12" Sample.aliceRow)
           (fun _ _ _ => eq_refl) (fun _ _ => eq_refl)
           (fun _ _ _ => eq_refl) (fun _ _ => eq_refl)).
  reflexivity.
Defined.

Lemma challengeMessage_injective_witness :
  Sample.t0 = Sample.t0 /\ "0xAB12"%string = "0xAB12"%string.
Proof.
  exact (challengeMessage_injective Sample.t0 Sample.t0 "0xAB12" "0xAB12" eq_refl).
Defined.

Lemma updateUser_display_name_witness :
  (3 <= String.length "alice_01" <= 20)%nat
  /\ exists existingUser,
       find (fun a => String.eqb (account_privyUserId a) "did:privy:alice")
            (accounts SampleDirectory.directory) = Some existingUser
       /\ account_socialProfiles existingUser = [].
Proof.
  destruct (updateUser_display_name "did:privy:alice" SampleDirectory.rename
              SampleDirectory.directory
              (snd (updateUser "did:privy:alice" SampleDirectory.rename
                      SampleDirectory.directory))
              (mkUserRow Sample.aliceRow (Some "alice_01"%string) true)
              "alice_01" eq_refl eq_refl)
    as (_ & Hlen & _ & _ & existing & Hfind & Hnone & _).
  split; [exact Hlen|]. exists existing. now split.
Defined.

Lemma getRecommendedUsers_entries_witness :
  recommendation_socialWallet
    (mkRecommendation (mkRecommendedUser 1 1 (Some 2) "0xca401" 10)
       "0xca401" "0xca401" (Some 2) 1 0) = "0xca401"%string
  /\ (0 <= 1)%nat.
Proof.
  destruct (getRecommendedUsers_entries "0xABCDEF" SampleDirectory.directory
              [ mkRecommendation (mkRecommendedUser 2 1 None "0xfeed" 30)
                  "0xfeed" "0xfeed" None 0 0;
                mkRecommendation (mkRecommendedUser 4 1 (Some 7) "0xbeef" 20)
                  "0xbeef" "0xbeef" (Some 7) 0 0;
                mkRecommendation (mkRecommendedUser 1 1 (Some 2) "0xca401" 10)
                  "0xca401" "0xca401" (Some 2) 1 0 ]
              (mkRecommendation (mkRecommendedUser 1 1 (Some 2) "0xca401" 10)
                 "0xca401" "0xca401" (Some 2) 1 0)
              eq_refl (or_intror (or_intror (or_introl eq_refl))))
    as (Hsw & _ & Hle & _).
  split; [exact Hsw | exact Hle].
Defined.

Lemma GET_contains_failures_witness :
  GET nat Z (fun _ => 7) 0 (fun _ _ _ => None)
      (mkNextRequest (Some "did:privy:alice"%string) None (Some ""%string))
  = mkNextResponse nat (JsonError nat SOMETHING_WENT_WRONG) 500.
Proof.
  refine (proj2 (GET_contains_failures nat Z (fun _ => 7) 0 (fun _ _ _ => None)
                   (mkNextRequest (Some "did:privy:alice"%string) None (Some ""%string))
                   "did:privy:alice" eq_refl _) eq_refl).
  discriminate.
Defined.
